(** * The OpenAI node of YORG-AI: history buffer, accumulator and gateway

    A shallow embedding of [backend/src/core/nodes/openai/openai.py].

    The node is a Python object whose [history] and [functions] fields hold
    references to mutable lists, and the lists hold references to dicts.  The
    embedding keeps that shape: one store maps locations to list objects (a
    list of references), another maps locations to dict objects, the node
    record holds locations, and every method is a computation in a
    state-and-exception monad.  A dict that is in two lists is one object:
    rewriting it through one list shows in the other.  The two external
    collaborators, [tt.trim] and [openai.ChatCompletion.create], are
    variables of the section that embeds the gateway; each call to them is
    recorded in a trace, so that what was sent can be stated. *)

From stdpp Require Import base option list strings gmap fin_maps.

Set Default Proof Using "Type".

(** ** Python values and dicts *)

(** The values that occur in the serialised records: [None], a string, or a
    structured payload (a record of named strings). *)
Inductive value :=
| VNone
| VStr (s : string)
| VObj (fields : list (string * string)).

(** A Python dict with string keys.  A key that is absent looks up to [None]
    (of [option]); a key that is present and holds Python's [None] looks up
    to [Some VNone]. *)
Abbreviation pydict := (gmap string value).

(** [set_if_present k v d] adds key [k] only when a value is there: the
    effect of [exclude_none=True] on one field. *)
Definition set_if_present (k : string) (v : option value) (d : pydict) : pydict :=
  match v with
  | Some x => <[k := x]> d
  | None => d
  end.

(** ** The typed models of [openai_model.py] *)

(** Modelled from the spec: [Message] is declared in [openai_model.py], which
    is not among the sources.  Spec, data model: "Message: {role: enum-like
    string, content: optional text, name: optional string, function_call:
    optional structured payload}". *)
Record Message := mkMessage {
  msg_role : string;
  msg_content : option string;
  msg_name : option string;
  msg_function_call : option (list (string * string))
}.

(** Modelled from the spec: the delta of a streaming response, "partial-Message
    fields": the fields of a message, each of which may be absent. *)
Record Delta := mkDelta {
  delta_role : option string;
  delta_content : option string;
  delta_name : option string;
  delta_function_call : option (list (string * string))
}.

(** [Message(...).dict(exclude_none=True)]: absent fields are omitted. *)
Definition Message_dict (m : Message) : pydict :=
  set_if_present "function_call" (VObj <$> msg_function_call m)
    (set_if_present "name" (VStr <$> msg_name m)
      (set_if_present "content" (VStr <$> msg_content m)
        (<["role" := VStr (msg_role m)]> ∅))).

(** [resp.delta.dict(exclude_none=True)]. *)
Definition Delta_dict (d : Delta) : pydict :=
  set_if_present "function_call" (VObj <$> delta_function_call d)
    (set_if_present "name" (VStr <$> delta_name d)
      (set_if_present "content" (VStr <$> delta_content d)
        (set_if_present "role" (VStr <$> delta_role d) ∅))).

(** [Message(role=r, content=c)]: the fields not given are absent. *)
Definition Message_of (r : string) (c : string) : Message :=
  mkMessage r (Some c) None None.

(** Modelled from the spec: [FunctionDefinition] and its redefined [dict()]
    are declared in [openai_model.py], which is not among the sources.  The
    spec names no field, so a definition is its declared fields in order,
    each holding a value or nothing.  Spec, function registry: "serialized
    with all fields, no omission of absent fields". *)
Record FunctionDefinition := mkFunctionDefinition {
  fd_fields : list (string * option value)
}.

Definition FunctionDefinition_dict (f : FunctionDefinition) : pydict :=
  list_to_map (prod_map id (default VNone) <$> fd_fields f).

(** Modelled from the spec: the configuration bundle carried by every request
    object, "{model, append_history: bool, use_streaming: bool}". *)
Record ChatConfig := mkChatConfig {
  model : string;
  append_history : bool;
  use_streaming : bool
}.

(** Modelled from the spec: the two response shapes, "non-streaming {message:
    Message, finish_reason: string}; streaming {delta: partial-Message
    fields}". *)
Record OpenAIResp := mkOpenAIResp {
  message : Message;
  finish_reason : string
}.

Record OpenAIStreamingResp := mkOpenAIStreamingResp {
  delta : Delta
}.

(** The return type [OpenAIResp | OpenAIStreamingResp]. *)
Inductive Resp :=
| Plain (r : OpenAIResp)
| Streaming (r : OpenAIStreamingResp).

(** ** Exceptions *)

(** A Python exception: its class and the text [str(e)] gives. *)
Inductive Exception := Exc (cls : string) (text : string).

Definition str (e : Exception) : string :=
  match e with Exc _ text => text end.

(** ** The request and the vendor's answer *)

(** The keyword arguments of the completion call.  [kwargs] is a dict whose
    keys other than ["model"] are set only on some paths: an absent key is
    [None] here. *)
Record Kwargs := mkKwargs {
  kw_model : string;
  kw_messages : option (list pydict);
  kw_functions : option (list pydict);
  kw_function_call : option string;
  kw_stream : option bool
}.

Definition set_messages (v : list pydict) (k : Kwargs) : Kwargs :=
  mkKwargs (kw_model k) (Some v) (kw_functions k) (kw_function_call k) (kw_stream k).
Definition set_functions (v : list pydict) (k : Kwargs) : Kwargs :=
  mkKwargs (kw_model k) (kw_messages k) (Some v) (kw_function_call k) (kw_stream k).
Definition set_function_call (v : string) (k : Kwargs) : Kwargs :=
  mkKwargs (kw_model k) (kw_messages k) (kw_functions k) (Some v) (kw_stream k).
Definition set_stream (v : bool) (k : Kwargs) : Kwargs :=
  mkKwargs (kw_model k) (kw_messages k) (kw_functions k) (kw_function_call k) (Some v).

(** One entry of [response.choices], as far as the typed models read it: the
    parts that validate, each present or not. *)
Record Choice := mkChoice {
  choice_message : option Message;
  choice_delta : option Delta;
  choice_finish_reason : option string
}.

Record Response := mkResponse {
  choices : list Choice
}.

(** ** The store, the node and the monad *)

Definition loc := positive.

(** The fields of the node object.  [history] and [functions] are references
    to list objects. *)
Record OpenAINode := mkNode {
  history : loc;
  functions : loc;
  cur_role : option string;
  cur_content : option string
}.

(** The calls that leave the program, with the values they were given. *)
Inductive Event :=
| EvTrim (window : list pydict) (mdl : string)
| EvCreate (kw : Kwargs).

(** [heap] holds the list objects, each a list of references to dict
    objects; [dicts] holds the dict objects. *)
Record State := mkState {
  self : OpenAINode;
  heap : gmap loc (list loc);
  dicts : gmap loc pydict;
  trace : list Event
}.

Inductive outcome (A : Type) :=
| Return (a : A)
| Raise (e : Exception).
Arguments Return {A} a.
Arguments Raise {A} e.

(** A computation runs on a state and ends by returning or raising; the
    state it leaves is kept in both cases, as Python keeps every mutation
    made before an exception. *)
Definition M (A : Type) : Type := State → outcome A * State.

Definition ret {A} (a : A) : M A := λ s, (Return a, s).

Definition bind {A B} (c : M A) (k : A → M B) : M B := λ s,
  match c s with
  | (Return a, s') => k a s'
  | (Raise e, s') => (Raise e, s')
  end.

Definition raise {A} (e : Exception) : M A := λ s, (Raise e, s).

#[global] Instance M_ret : MRet M := @ret.
#[global] Instance M_bind : MBind M := λ A B k c, bind c k.
#[global] Instance M_fmap : FMap M := λ A B f c, bind c (λ a, ret (f a)).

Definition get_self : M OpenAINode := λ s, (Return (self s), s).

Definition set_cur_role (r : option string) : M unit := λ s,
  (Return (),
   mkState (mkNode (history (self s)) (functions (self s)) r (cur_content (self s)))
           (heap s) (dicts s) (trace s)).

Definition set_cur_content (c : option string) : M unit := λ s,
  (Return (),
   mkState (mkNode (history (self s)) (functions (self s)) (cur_role (self s)) c)
           (heap s) (dicts s) (trace s)).

(** [[]]: a new list object at a location not in use. *)
Definition new_list : M loc := λ s,
  let l := fresh (dom (heap s)) in
  (Return l, mkState (self s) (<[l := []]> (heap s)) (dicts s) (trace s)).

(** A new dict object holding [d], at a location not in use: what
    [.dict(...)] returns. *)
Definition new_dict (d : pydict) : M loc := λ s,
  let r := fresh (dom (dicts s)) in
  (Return r, mkState (self s) (heap s) (<[r := d]> (dicts s)) (trace s)).

(** The references a list object holds.  A Python reference is always live;
    a location that is not allocated reads as the empty list (as the empty
    dict), and the theorems assume the node's references are allocated. *)
Definition read_list (l : loc) : M (list loc) := λ s,
  (Return (heap s !!! l), s).

(** The dicts behind a list of references. *)
Definition contents (ds : gmap loc pydict) (rs : list loc) : list pydict :=
  (λ r, ds !!! r) <$> rs.

Definition read_dicts (rs : list loc) : M (list pydict) := λ s,
  (Return (contents (dicts s) rs), s).

(** The store after the list at [l] has been extended by [rs] in place. *)
Definition append_to (l : loc) (rs : list loc)
    (hp : gmap loc (list loc)) : gmap loc (list loc) :=
  alter (λ xs, xs ++ rs) l hp.

(** [l.append(d)] *)
Definition list_append (l : loc) (r : loc) : M unit := λ s,
  (Return (), mkState (self s) (append_to l [r] (heap s)) (dicts s) (trace s)).

(** [l += rs]: the references are copied, the dicts are not. *)
Definition list_extend (l : loc) (rs : list loc) : M unit := λ s,
  (Return (), mkState (self s) (append_to l rs (heap s)) (dicts s) (trace s)).

(** The list at [l] rewritten in place by code outside the program. *)
Definition list_overwrite (l : loc) (rs : list loc) : M unit := λ s,
  (Return (), mkState (self s) (alter (λ _, rs) l (heap s)) (dicts s) (trace s)).

(** The dicts at [refs] rewritten in place, position by position: the dict
    at the i-th reference gets the i-th of [new]; where [new] is shorter the
    dicts are left as they are. *)
Fixpoint rewrite_at (refs : list loc) (new : list pydict)
    (ds : gmap loc pydict) : gmap loc pydict :=
  match refs, new with
  | r :: refs', d :: new' => rewrite_at refs' new' (<[r := d]> ds)
  | _, _ => ds
  end.

Definition dicts_rewrite (refs : list loc) (new : list pydict) : M unit := λ s,
  (Return (), mkState (self s) (heap s) (rewrite_at refs new (dicts s)) (trace s)).

Definition emit (e : Event) : M unit := λ s,
  (Return (), mkState (self s) (heap s) (dicts s) (trace s ++ [e])).

(** [for x in xs: body(x)] *)
Fixpoint for_each {A} (xs : list A) (body : A → M unit) : M unit :=
  match xs with
  | [] => ret ()
  | x :: rest => body x;; for_each rest body
  end.

(** ** The methods that do not leave the program *)

(** [OpenAINode.__init__]: two new lists and an empty accumulator.  The
    assignments to [openai.api_key] and [openai.api_base] set the vendor
    library's configuration and touch nothing of the node. *)
Definition __init__ (hp : gmap loc (list loc)) (ds : gmap loc pydict)
    (tr : list Event) : State :=
  let h := fresh (dom hp) in
  let hp1 := <[h := []]> hp in
  let f := fresh (dom hp1) in
  mkState (mkNode h f None None) (<[f := []]> hp1) ds tr.

Definition add_function (func_def : FunctionDefinition) : M unit :=
  s ← get_self;
  d ← new_dict (FunctionDefinition_dict func_def);
  list_append (functions s) d.

Definition add_single_message (msg : Message) : M unit :=
  s ← get_self;
  match cur_role s, cur_content s with
  | Some r, Some c =>
      d ← new_dict (Message_dict (Message_of r c));
      list_append (history s) d;;
      set_cur_role None;;
      set_cur_content None
  | _, _ => ret ()
  end;;
  s ← get_self;
  d ← new_dict (Message_dict msg);
  list_append (history s) d.

Definition add_system_message (c : string) : M unit :=
  add_single_message (Message_of "system" c).

Definition add_role (r : string) : M unit :=
  s ← get_self;
  match cur_role s, cur_content s with
  | Some r0, Some c0 => add_single_message (Message_of r0 c0)
  | _, _ => ret ()
  end;;
  set_cur_role (Some r).

Definition add_content (c : string) : M unit :=
  s ← get_self;
  match cur_content s with
  | Some c0 => set_cur_content (Some (c0 +:+ c))
  | None => set_cur_content (Some c)
  end.

(** ** The completion gateway *)

(** The seed of an empty conversation. *)
Definition default_system_message : Message :=
  Message_of "system"
    "You are a helpful AI assistant. You should answer the user's questions and help them with their tasks.".

(** [response.choices[0]] *)
Definition first_choice (response : Response) : M Choice :=
  match choices response with
  | c :: _ => ret c
  | [] => raise (Exc "IndexError" "list index out of range")
  end.

(** [OpenAIResp] applied to the fields of the choice: both are required. *)
Definition OpenAIResp_new (c : Choice) : M OpenAIResp :=
  match choice_message c, choice_finish_reason c with
  | Some m, Some f => ret (mkOpenAIResp m f)
  | _, _ => raise (Exc "ValidationError" "validation error for OpenAIResp")
  end.

(** [OpenAIStreamingResp] applied to the fields of the choice. *)
Definition OpenAIStreamingResp_new (c : Choice) : M OpenAIStreamingResp :=
  match choice_delta c with
  | Some d => ret (mkOpenAIStreamingResp d)
  | None => raise (Exc "ValidationError" "validation error for OpenAIStreamingResp")
  end.

(** The response that stands for a failed call. *)
Definition error_response (e : Exception) : OpenAIResp :=
  mkOpenAIResp (Message_of "system" ("Error occurred: " +:+ str e)) "error".

(** What a call of [tt.trim] did in place.  [te_records]: the contents the
    dicts of its argument have afterwards, position by position (a position
    it does not reach keeps its dict as it was; the empty list says that no
    dict was touched).  [te_kept]: the positions of its argument that the
    list still holds afterwards, in order. *)
Record TrimEffect := mkTrimEffect {
  te_records : list pydict;
  te_kept : list nat
}.

Section Gateway.

(** [tt.trim(messages, model)] is the [tokentrim] library's.  It is handed
    a list object and, through it, the dict objects the list holds; it may
    rewrite both in place, and it returns a list of records or raises.
    [tt_trim w mdl], for the records [w] the list holds, gives what the call
    did in place (a [TrimEffect]) and its result.  Whatever was done in place
    stays done when the call raises. *)
Variable tt_trim : list pydict → string → TrimEffect * (Exception + list pydict).

(** [openai.ChatCompletion.create]: an answer or an exception. *)
Variable ChatCompletion_create : Kwargs → Exception + Response.

Definition trim (l : loc) (mdl : string) : M (list pydict) :=
  refs ← read_list l;
  w ← read_dicts refs;
  emit (EvTrim w mdl);;
  let '(eff, r) := tt_trim w mdl in
  dicts_rewrite refs (te_records eff);;
  list_overwrite l (omap (λ i, refs !! i) (te_kept eff));;
  match r with
  | inl e => raise e
  | inr trimmed => ret trimmed
  end.

(** [try: response = create except Exception as e: ...]: the
    call itself never raises here, its exception is handed to the caller
    of [try_create] as a value.  The vendor library serialises the request
    it is given and is taken to change nothing of it. *)
Definition try_create (kwargs : Kwargs) : M (Exception + Response) :=
  emit (EvCreate kwargs);;
  ret (ChatCompletion_create kwargs).

Definition _make_completion (messages : list Message) (input : ChatConfig) : M Resp :=
  let kwargs := mkKwargs (model input) None None None None in
  cur_messages ← new_list;
  s ← get_self;
  hist ← read_list (history s);
  (if decide (length hist = 0)
   then d ← new_dict (Message_dict default_system_message);
        list_append cur_messages d
   else list_extend cur_messages hist);;
  (if append_history input
   then for_each messages add_single_message
   else ret ());;
  for_each messages
    (λ msg, d ← new_dict (Message_dict msg); list_append cur_messages d);;
  trimmed ← trim cur_messages (model input);
  let kwargs := set_messages trimmed kwargs in
  s ← get_self;
  frefs ← read_list (functions s);
  funcs ← read_dicts frefs;
  let kwargs :=
    if decide (0 < length funcs)
    then set_function_call "auto" (set_functions funcs kwargs)
    else kwargs in
  let kwargs := if use_streaming input then set_stream true kwargs else kwargs in
  r ← try_create kwargs;
  match r with
  | inl e => ret (Plain (error_response e))
  | inr response =>
      if use_streaming input then
        c ← first_choice response;
        resp ← OpenAIStreamingResp_new c;
        (if append_history input
         then s ← get_self;
              d ← new_dict (Delta_dict (delta resp));
              list_append (history s) d
         else ret () : M unit);;
        ret (Streaming resp)
      else
        c ← first_choice response;
        resp ← OpenAIResp_new c;
        (if append_history input
         then s ← get_self;
              d ← new_dict (Message_dict (message resp));
              list_append (history s) d
         else ret () : M unit);;
        ret (Plain resp)
  end.

(** [complete], [chat], [chat_with_message] and [chat_with_messages] pass
    their messages on. *)
Definition complete (input : ChatConfig) : M Resp :=
  _make_completion [] input.

Definition chat (message_text : string) (input : ChatConfig) : M Resp :=
  _make_completion [Message_of "user" message_text] input.

Definition chat_with_message (msg : Message) (input : ChatConfig) : M Resp :=
  _make_completion [msg] input.

Definition chat_with_messages (msgs : list Message) (input : ChatConfig) : M Resp :=
  _make_completion msgs input.

(** One call of a method of the node, and its run.  The result of a
    gateway call is kept, the other methods return nothing. *)
Inductive Op :=
| OpAddFunction (func_def : FunctionDefinition)
| OpAddSingleMessage (msg : Message)
| OpAddSystemMessage (c : string)
| OpAddRole (r : string)
| OpAddContent (c : string)
| OpComplete (input : ChatConfig)
| OpChat (message_text : string) (input : ChatConfig)
| OpChatWithMessage (msg : Message) (input : ChatConfig)
| OpChatWithMessages (msgs : list Message) (input : ChatConfig).

Definition run_op (op : Op) : M (option Resp) :=
  match op with
  | OpAddFunction fd => add_function fd;; mret None
  | OpAddSingleMessage msg => add_single_message msg;; mret None
  | OpAddSystemMessage c => add_system_message c;; mret None
  | OpAddRole r => add_role r;; mret None
  | OpAddContent c => add_content c;; mret None
  | OpComplete input => Some <$> complete input
  | OpChat text input => Some <$> chat text input
  | OpChatWithMessage msg input => Some <$> chat_with_message msg input
  | OpChatWithMessages msgs input => Some <$> chat_with_messages msgs input
  end.

End Gateway.

(** ** What a run leaves behind, as plain functions

    The functions below describe, without the monad, the pieces that the
    statements talk about.  The lemmas [add_single_message_run],
    [commit_loop_run] and [make_completion_summary] show that the code
    computes them. *)

(** Both fields of the accumulator are set. *)
Definition complete_pending (n : OpenAINode) : bool :=
  match cur_role n, cur_content n with
  | Some _, Some _ => true
  | _, _ => false
  end.

(** The record the accumulator stands for, when both fields are set. *)
Definition pending (n : OpenAINode) : list pydict :=
  match cur_role n, cur_content n with
  | Some r, Some c => [Message_dict (Message_of r c)]
  | _, _ => []
  end.

(** The node once a complete accumulator has been flushed. *)
Definition flushed (n : OpenAINode) : OpenAINode :=
  if complete_pending n then mkNode (history n) (functions n) None None else n.

(** What the loop [for message in messages: self.add_single_message(message)]
    appends to the history. *)
Definition commits (n : OpenAINode) (msgs : list Message) : list pydict :=
  match msgs with
  | [] => []
  | _ :: _ => pending n ++ (Message_dict <$> msgs)
  end.

(** The list handed to [tt.trim]. *)
Definition window_of (hist : list pydict) (msgs : list Message) : list pydict :=
  (if decide (length hist = 0) then [Message_dict default_system_message] else hist)
    ++ (Message_dict <$> msgs).

(** The keyword arguments of the call. *)
Definition request_of (input : ChatConfig) (trimmed funcs : list pydict) : Kwargs :=
  mkKwargs (model input) (Some trimmed)
    (if decide (0 < length funcs) then Some funcs else None)
    (if decide (0 < length funcs) then Some "auto" else None)
    (if use_streaming input then Some true else None).

(** What the gateway does with an answer of the vendor: its outcome, and the
    record it commits to the history when [append_history] is set. *)
Definition respond (input : ChatConfig) (response : Response)
    : outcome Resp * list pydict :=
  match choices response with
  | [] => (Raise (Exc "IndexError" "list index out of range"), [])
  | c :: _ =>
      if use_streaming input then
        match choice_delta c with
        | Some d =>
            (Return (Streaming (mkOpenAIStreamingResp d)),
             if append_history input then [Delta_dict d] else [])
        | None =>
            (Raise (Exc "ValidationError" "validation error for OpenAIStreamingResp"), [])
        end
      else
        match choice_message c, choice_finish_reason c with
        | Some m, Some f =>
            (Return (Plain (mkOpenAIResp m f)),
             if append_history input then [Message_dict m] else [])
        | _, _ =>
            (Raise (Exc "ValidationError" "validation error for OpenAIResp"), [])
        end
  end.

(** The node after the gateway's history-commit loop, and what that loop
    appended. *)
Definition committed (input : ChatConfig) (msgs : list Message)
    (n : OpenAINode) : OpenAINode :=
  if append_history input
  then match msgs with [] => n | _ :: _ => flushed n end
  else n.

Definition history_commits (input : ChatConfig) (n : OpenAINode)
    (msgs : list Message) : list pydict :=
  if append_history input then commits n msgs else [].

(** The references in [rs] are live. *)
Definition allocated (ds : gmap loc pydict) (rs : list loc) : Prop :=
  Forall (λ r, is_Some (ds !! r)) rs.

(** The node's references are live and are two different lists, as
    [__init__] makes them; the dicts in them are live, each dict of the
    history is in it once, and no dict is in both lists, as every dict the
    node appends is a new one.  [__init__] gives a node like this and every
    operation keeps it so ([node_wf_init], [node_wf_run_op]). *)
Definition node_wf (s : State) : Prop :=
  is_Some (heap s !! history (self s)) ∧
  is_Some (heap s !! functions (self s)) ∧
  history (self s) ≠ functions (self s) ∧
  NoDup (heap s !!! history (self s)) ∧
  allocated (dicts s) (heap s !!! history (self s)) ∧
  allocated (dicts s) (heap s !!! functions (self s)) ∧
  Forall (λ r, r ∉ heap s !!! history (self s)) (heap s !!! functions (self s)).

#[global] Instance node_wf_dec s : Decision (node_wf s).
Proof. unfold node_wf, allocated. apply _. Defined.

(** The contents of the conversation buffer and of the function registry:
    the dicts behind the references the two lists hold. *)
Definition buffer (s : State) : list pydict :=
  contents (dicts s) (heap s !!! history (self s)).
Definition registry (s : State) : list pydict :=
  contents (dicts s) (heap s !!! functions (self s)).

(** New dict objects for the records [xs], allocated one after the other:
    their references, in order, and the store of dicts afterwards. *)
Fixpoint alloc_all (xs : list pydict) (ds : gmap loc pydict)
    : list loc * gmap loc pydict :=
  match xs with
  | [] => ([], ds)
  | x :: xs' =>
      let r := fresh (dom ds) in
      let rest := alloc_all xs' (<[r := x]> ds) in
      (r :: rest.1, rest.2)
  end.

(** The state after new dicts for the records [xs] have been appended to the
    history, and the state with one more event in its trace. *)
Definition push_history (xs : list pydict) (s : State) : State :=
  mkState (self s)
    (append_to (history (self s)) (alloc_all xs (dicts s)).1 (heap s))
    (alloc_all xs (dicts s)).2 (trace s).

Definition with_event (e : Event) (s : State) : State :=
  mkState (self s) (heap s) (dicts s) (trace s ++ [e]).

(** The records [old] after an in-place rewrite that gives the i-th of them
    the i-th of [new], where there is one. *)
Fixpoint rewrite_records (new old : list pydict) : list pydict :=
  match old, new with
  | _ :: old', d :: new' => d :: rewrite_records new' old'
  | _, _ => old
  end.

(** A record has neither a role nor a content. *)
Definition blank (d : pydict) : Prop := d !! "role" = None ∧ d !! "content" = None.

(** A record carries a role. *)
Definition has_role (d : pydict) : Prop := is_Some (d !! "role").

(** The configuration an operation is called with, for the gateway calls. *)
Definition op_input (op : Op) : option ChatConfig :=
  match op with
  | OpComplete input | OpChat _ input | OpChatWithMessage _ input
  | OpChatWithMessages _ input => Some input
  | _ => None
  end.

(** The record the gateway commits for a response it returns. *)
Definition resp_record (r : Resp) : pydict :=
  match r with
  | Plain p => Message_dict (message p)
  | Streaming q => Delta_dict (delta q)
  end.

(** Between [s] and [s'] the window [w] was handed to [tt.trim] and the
    vendor was then called with [kw]: these are the two events the run
    added to the trace. *)
Definition called_with (s s' : State) (w : list pydict) (kw : Kwargs) : Prop :=
  ∃ mdl, trace s' = trace s ++ [EvTrim w mdl; EvCreate kw].

Section GatewayResults.

Variable tt_trim : list pydict → string → TrimEffect * (Exception + list pydict).

(** The records of the stored history once [tt.trim] has run on the window
    of a call.  On a buffer that is not empty the window begins with the
    dicts of the history themselves, so what the trim rewrote in place among
    the first records of its argument is rewritten in the buffer.  (On an
    empty buffer there is nothing to rewrite.) *)
Definition history_after_trim (msgs : list Message) (input : ChatConfig)
    (s : State) : list pydict :=
  rewrite_records
    (te_records (tt_trim (window_of (buffer s) msgs) (model input)).1)
    (buffer s).

(** The state in which [tt.trim] leaves the gateway.  The window is a new
    list [c]; it holds the references of the history (the same dicts), the
    seed's when the history is empty, and those of new dicts for the new
    messages.  The history has been extended by new dicts for the history
    commits.  The trim has rewritten the dicts of the window in place and
    has left in the window the positions it kept. *)
Definition after_trim (msgs : list Message) (input : ChatConfig)
    (s : State) : State :=
  let h := history (self s) in
  let hrefs := heap s !!! h in
  let c := fresh (dom (heap s)) in
  let a0 := alloc_all (if decide (length hrefs = 0)
                       then [Message_dict default_system_message] else [])
              (dicts s) in
  let a1 := alloc_all (history_commits input (self s) msgs) a0.2 in
  let a2 := alloc_all (Message_dict <$> msgs) a1.2 in
  let wr := hrefs ++ a0.1 ++ a2.1 in
  let w := contents a2.2 wr in
  let eff := (tt_trim w (model input)).1 in
  mkState (committed input msgs (self s))
    (<[c := omap (λ i, wr !! i) (te_kept eff)]> (append_to h a1.1 (heap s)))
    (rewrite_at wr (te_records eff) a2.2)
    (trace s ++ [EvTrim w (model input)]).

End GatewayResults.

(** ** Sample collaborators and states

    Concrete stand-ins for the outside, used where a statement is run on an
    input. *)

(** The effect of a trim that touches neither the list nor its dicts. *)
Definition nothing_in_place (w : list pydict) : TrimEffect :=
  mkTrimEffect [] (seq 0 (length w)).

(** A trim that keeps every message and leaves its argument alone. *)
Definition trim_keeps_all (w : list pydict) (mdl : string)
    : TrimEffect * (Exception + list pydict) := (nothing_in_place w, inr w).

(** A trim that empties the list it is handed and returns its last record;
    the dicts are left alone. *)
Definition trim_keeps_last (w : list pydict) (mdl : string)
    : TrimEffect * (Exception + list pydict) :=
  (mkTrimEffect [] [], inr (drop (length w - 1) w)).

(** A trim that shortens every message where it stands: it sets the content
    of each dict of its argument to the empty text, in place, and returns
    the records as they then are. *)
Definition cut (d : pydict) : pydict := <["content" := VStr ""]> d.
Definition trim_cuts_in_place (w : list pydict) (mdl : string)
    : TrimEffect * (Exception + list pydict) :=
  (mkTrimEffect (cut <$> w) (seq 0 (length w)), inr (cut <$> w)).

(** A vendor that cannot be reached. *)
Definition vendor_down (kw : Kwargs) : Exception + Response :=
  inl (Exc "APIConnectionError" "connection refused").

(** A vendor whose first choice holds the complete message [m]. *)
Definition vendor_says (m : Message) (kw : Kwargs) : Exception + Response :=
  inr (mkResponse [mkChoice (Some m) None (Some "stop")]).

(** A vendor whose first choice holds the delta [d]. *)
Definition vendor_streams (d : Delta) (kw : Kwargs) : Exception + Response :=
  inr (mkResponse [mkChoice None (Some d) None]).

(** A node as [__init__] leaves it, in an otherwise empty store. *)
Definition fresh_node : State := __init__ ∅ ∅ [].

(** A fresh node after [add_role "user"; add_content "x"]: its accumulator
    is complete. *)
Definition node_with_pending : State :=
  ((add_role "user";; add_content "x") fresh_node).2.

(** A fresh node after [add_content "x"]: content without a role. *)
Definition node_with_content_only : State :=
  (add_content "x" fresh_node).2.

(** A fresh node after two direct appends. *)
Definition node_with_history : State :=
  ((add_system_message "be brief";;
    add_single_message (Message_of "user" "hi")) fresh_node).2.

(** One new user message. *)
Definition one_message : list Message := [Message_of "user" "hi"].

(** Configurations: history kept or not, streaming or not. *)
Definition keep_history : ChatConfig := mkChatConfig "gpt-4" true false.
Definition keep_history_streaming : ChatConfig := mkChatConfig "gpt-4" true true.
Definition no_history : ChatConfig := mkChatConfig "gpt-4" false false.

(** A delta without any field, as the last chunk of a stream carries. *)
Definition empty_delta : Delta := mkDelta None None None None.

(** A vendor whose first choice is the last chunk of a stream: a delta
    without any field, and the reason the stream ended. *)
Definition vendor_ends_stream (kw : Kwargs) : Exception + Response :=
  inr (mkResponse [mkChoice None (Some empty_delta) (Some "stop")]).

(** A function definition with one field set and one absent. *)
Definition get_weather : FunctionDefinition :=
  mkFunctionDefinition [("name", Some (VStr "get_weather")); ("description", None)].

(** The text of a list of content fragments, in the order they arrive. *)
Definition fragments_text (cs : list string) : string :=
  foldr String.append "" cs.

(** A trim that raises and leaves its argument alone. *)
Definition trim_fails (w : list pydict) (mdl : string)
    : TrimEffect * (Exception + list pydict) :=
  (nothing_in_place w, inl (Exc "NotImplementedError" "unknown model")).

(** A vendor that answers without any choice. *)
Definition vendor_no_choice (kw : Kwargs) : Exception + Response :=
  inr (mkResponse []).

(** * Facts *)

#[global] Arguments append_to : simpl never.
#[global] Arguments Message_dict : simpl never.
#[global] Arguments Delta_dict : simpl never.
#[global] Arguments FunctionDefinition_dict : simpl never.
#[global] Arguments contents : simpl never.

(** Well-formedness of a concrete state, by evaluation. *)
Ltac concrete_wf := apply (bool_decide_unpack _); vm_compute; exact I.

(** Unfolds the monad and the primitive operations of the store. *)
Ltac run :=
  unfold add_single_message, add_role, add_content, add_function,
    mbind, M_bind, bind, mret, M_ret, ret, raise, get_self, set_cur_role,
    set_cur_content, list_append, list_extend, list_overwrite, read_list,
    read_dicts, new_list, new_dict, dicts_rewrite, emit;
  cbn.

(** ** The store of lists *)

Lemma append_to_nil l hp : append_to l [] hp = hp.
Proof. apply alter_id. intros x _. apply app_nil_r. Qed.

Lemma append_to_app l ds1 ds2 hp :
  append_to l ds2 (append_to l ds1 hp) = append_to l (ds1 ++ ds2) hp.
Proof.
  unfold append_to. rewrite alter_alter_eq.
  apply alter_ext. intros x _. simpl. by rewrite app_assoc.
Qed.

Lemma append_to_comm l1 l2 ds1 ds2 hp :
  l1 ≠ l2 →
  append_to l1 ds1 (append_to l2 ds2 hp) = append_to l2 ds2 (append_to l1 ds1 hp).
Proof. intros. unfold append_to. by rewrite alter_alter_ne. Qed.

Lemma append_to_insert_eq l ds xs hp :
  append_to l ds (<[l := xs]> hp) = <[l := xs ++ ds]> hp.
Proof. unfold append_to. by rewrite alter_insert_eq. Qed.

Lemma append_to_insert_ne l l' ds xs hp :
  l ≠ l' → append_to l ds (<[l' := xs]> hp) = <[l' := xs]> (append_to l ds hp).
Proof. intros. unfold append_to. by rewrite alter_insert_ne. Qed.

Lemma lookup_append_to l l' ds hp :
  append_to l ds hp !! l' =
    if decide (l = l') then (λ xs, xs ++ ds) <$> hp !! l else hp !! l'.
Proof. unfold append_to. rewrite lookup_alter. by case_decide; subst. Qed.

Lemma lookup_total_append_to l ds hp :
  is_Some (hp !! l) → append_to l ds hp !!! l = hp !!! l ++ ds.
Proof.
  intros [xs Hxs]. unfold append_to.
  rewrite lookup_total_alter_eq, Hxs. simpl.
  by rewrite (lookup_total_correct _ _ _ Hxs).
Qed.

Lemma lookup_total_append_to_ne l l' ds hp :
  l ≠ l' → append_to l ds hp !!! l' = hp !!! l'.
Proof. intros. unfold append_to. by rewrite lookup_total_alter_ne. Qed.

Lemma is_Some_append_to l l' ds hp :
  is_Some (hp !! l') → is_Some (append_to l ds hp !! l').
Proof.
  intros H. rewrite lookup_append_to. case_decide; [subst|done].
  by apply fmap_is_Some.
Qed.

Lemma fresh_not_allocated {A} (hp : gmap loc A) l :
  is_Some (hp !! l) → l ≠ fresh (dom hp).
Proof.
  intros Hl ->. apply elem_of_dom in Hl. by apply is_fresh in Hl.
Qed.

Lemma lookup_fresh {A} (hp : gmap loc A) : hp !! fresh (dom hp) = None.
Proof. apply not_elem_of_dom, is_fresh. Qed.

(** ** The store of dicts *)

Lemma contents_cons ds r rs : contents ds (r :: rs) = ds !!! r :: contents ds rs.
Proof. reflexivity. Qed.

Lemma contents_app ds rs1 rs2 :
  contents ds (rs1 ++ rs2) = contents ds rs1 ++ contents ds rs2.
Proof. apply fmap_app. Qed.

Lemma length_contents ds rs : length (contents ds rs) = length rs.
Proof. apply length_fmap. Qed.

(** Dicts that agree on the references give the same contents. *)
Lemma contents_ext ds ds' rs :
  (∀ r, r ∈ rs → ds' !! r = ds !! r) → contents ds' rs = contents ds rs.
Proof.
  intros H. unfold contents. apply list_fmap_ext.
  intros i r Hr. unfold lookup_total, map_lookup_total.
  rewrite H; [done|]. by eapply list_elem_of_lookup_2.
Qed.

Lemma allocated_app ds rs1 rs2 :
  allocated ds (rs1 ++ rs2) ↔ allocated ds rs1 ∧ allocated ds rs2.
Proof. apply Forall_app. Qed.

Lemma allocated_mono ds ds' rs :
  (∀ r, is_Some (ds !! r) → is_Some (ds' !! r)) →
  allocated ds rs → allocated ds' rs.
Proof. intros H Ha. eapply Forall_impl; [exact Ha|]. intros r. apply H. Qed.

(** *** Allocation *)

Lemma length_alloc_all xs ds : length (alloc_all xs ds).1 = length xs.
Proof.
  revert ds. induction xs as [|x xs IH]; intros ds; [done|].
  cbn. by rewrite IH.
Qed.

(** What was live stays as it was. *)
Lemma alloc_all_old xs ds r :
  is_Some (ds !! r) → (alloc_all xs ds).2 !! r = ds !! r.
Proof.
  revert ds. induction xs as [|x xs IH]; intros ds Hr; [done|].
  cbn. rewrite IH.
  - apply lookup_insert_ne. by apply not_eq_sym, fresh_not_allocated.
  - rewrite lookup_insert_ne; [done|]. by apply not_eq_sym, fresh_not_allocated.
Qed.

Lemma alloc_all_live xs ds r :
  is_Some (ds !! r) → is_Some ((alloc_all xs ds).2 !! r).
Proof. intros H. by rewrite alloc_all_old. Qed.

(** The new references were not in use. *)
Lemma alloc_all_fresh xs ds :
  Forall (λ r, ds !! r = None) (alloc_all xs ds).1.
Proof.
  revert ds. induction xs as [|x xs IH]; intros ds; [by constructor|].
  cbn. constructor; [apply lookup_fresh|].
  eapply Forall_impl; [apply IH|]. intros r Hr. cbn in Hr.
  destruct (decide (fresh (dom ds) = r)) as [<-|Hne].
  - by rewrite lookup_insert_eq in Hr.
  - by rewrite lookup_insert_ne in Hr.
Qed.

Lemma alloc_all_not_in xs ds rs :
  allocated ds rs → Forall (λ r, r ∉ rs) (alloc_all xs ds).1.
Proof.
  intros Hrs. eapply Forall_impl; [apply alloc_all_fresh|].
  intros r Hr Hin. cbn in Hr.
  unfold allocated in Hrs. rewrite Forall_forall in Hrs.
  destruct (Hrs r Hin) as [d Hd]. congruence.
Qed.

Lemma alloc_all_NoDup xs ds : NoDup (alloc_all xs ds).1.
Proof.
  revert ds. induction xs as [|x xs IH]; intros ds; [constructor|].
  cbn. constructor; [|apply IH].
  intros Hin.
  pose proof (alloc_all_fresh xs (<[fresh (dom ds) := x]> ds)) as Hf.
  rewrite Forall_forall in Hf. specialize (Hf _ Hin). cbn in Hf.
  by rewrite lookup_insert_eq in Hf.
Qed.

(** The new dicts hold the records, in order. *)
Lemma alloc_all_contents xs ds :
  contents (alloc_all xs ds).2 (alloc_all xs ds).1 = xs.
Proof.
  revert ds. induction xs as [|x xs IH]; intros ds; [done|].
  cbn [alloc_all fst snd]. rewrite contents_cons. f_equal; [|apply IH].
  unfold lookup_total, map_lookup_total.
  rewrite alloc_all_old; rewrite lookup_insert_eq; [done | eauto].
Qed.

Lemma alloc_all_allocated xs ds :
  allocated (alloc_all xs ds).2 (alloc_all xs ds).1.
Proof.
  revert ds. induction xs as [|x xs IH]; intros ds; [constructor|].
  cbn. constructor; [|apply IH].
  apply alloc_all_live. rewrite lookup_insert_eq. eauto.
Qed.

Lemma alloc_all_app xs ys ds :
  alloc_all (xs ++ ys) ds =
    ((alloc_all xs ds).1 ++ (alloc_all ys (alloc_all xs ds).2).1,
     (alloc_all ys (alloc_all xs ds).2).2).
Proof.
  revert ds. induction xs as [|x xs IH]; intros ds.
  - cbn. by destruct (alloc_all ys ds).
  - cbn. by rewrite IH.
Qed.

(** Live references keep their contents through an allocation. *)
Lemma contents_alloc_all xs ds rs :
  allocated ds rs → contents (alloc_all xs ds).2 rs = contents ds rs.
Proof.
  intros Hrs. apply contents_ext. intros r Hr. apply alloc_all_old.
  unfold allocated in Hrs. rewrite Forall_forall in Hrs. by apply Hrs.
Qed.

Lemma allocated_alloc_all xs ds rs :
  allocated ds rs → allocated (alloc_all xs ds).2 rs.
Proof. apply allocated_mono. intros r. apply alloc_all_live. Qed.

(** A list of distinct live references, extended by new ones, is a list of
    distinct live references. *)
Lemma NoDup_alloc_all xs ds rs :
  NoDup rs → allocated ds rs → NoDup (rs ++ (alloc_all xs ds).1).
Proof.
  intros Hnd Hrs. apply NoDup_app. split_and!; [done | | apply alloc_all_NoDup].
  intros r Hr Hin.
  pose proof (alloc_all_not_in xs ds rs Hrs) as Hf.
  rewrite Forall_forall in Hf. by apply (Hf r Hin).
Qed.

(** *** Rewriting in place *)

Lemma rewrite_at_other refs new ds r :
  r ∉ refs → rewrite_at refs new ds !! r = ds !! r.
Proof.
  revert new ds. induction refs as [|r0 refs IH]; intros new ds Hr; [done|].
  destruct new as [|d new]; [done|]. cbn.
  apply not_elem_of_cons in Hr as [Hne Hr].
  rewrite IH by done. by rewrite lookup_insert_ne.
Qed.

Lemma rewrite_at_live refs new ds r :
  is_Some (ds !! r) → is_Some (rewrite_at refs new ds !! r).
Proof.
  revert new ds. induction refs as [|r0 refs IH]; intros new ds Hr; [done|].
  destruct new as [|d new]; [done|]. cbn. apply IH.
  destruct (decide (r0 = r)) as [->|Hne].
  - rewrite lookup_insert_eq. eauto.
  - by rewrite lookup_insert_ne.
Qed.

Lemma contents_rewrite_at_other refs new ds rs :
  Forall (λ r, r ∉ refs) rs →
  contents (rewrite_at refs new ds) rs = contents ds rs.
Proof.
  intros H. apply contents_ext. intros r Hr. apply rewrite_at_other.
  rewrite Forall_forall in H. by apply H.
Qed.

(** Through distinct references the dicts read afterwards are the records
    rewritten position by position. *)
Lemma contents_rewrite_at refs new ds :
  NoDup refs →
  contents (rewrite_at refs new ds) refs = rewrite_records new (contents ds refs).
Proof.
  revert new ds. induction refs as [|r refs IH]; intros new ds Hnd;
    [by destruct new|].
  apply NoDup_cons in Hnd as [Hr Hnd].
  destruct new as [|d new]; [reflexivity|].
  rewrite !contents_cons. cbn [rewrite_at rewrite_records]. f_equal.
  - unfold lookup_total, map_lookup_total.
    by rewrite rewrite_at_other, lookup_insert_eq.
  - rewrite IH by done. f_equal. apply contents_ext.
    intros r' Hr'. apply lookup_insert_ne. by intros ->.
Qed.

Lemma rewrite_records_app new old1 old2 :
  rewrite_records new (old1 ++ old2) =
    rewrite_records new old1 ++ rewrite_records (drop (length old1) new) old2.
Proof.
  revert new. induction old1 as [|o old1 IH]; intros new.
  - cbn. by destruct old2, new.
  - destruct new as [|d new]; cbn.
    + by destruct old2.
    + by rewrite IH.
Qed.

Lemma length_rewrite_records new old :
  length (rewrite_records new old) = length old.
Proof.
  revert new. induction old as [|o old IH]; intros new; [by destruct new|].
  destruct new as [|d new]; cbn; by rewrite ?IH.
Qed.

Lemma rewrite_records_nil old : rewrite_records [] old = old.
Proof. by destruct old. Qed.

(** The head of the window is the history: what the rewrite leaves in the
    dicts of the history, read through the history's references. *)
Lemma contents_rewrite_at_prefix hrefs wrefs new ds :
  NoDup (hrefs ++ wrefs) →
  contents (rewrite_at (hrefs ++ wrefs) new ds) hrefs
    = rewrite_records new (contents ds hrefs).
Proof.
  intros Hnd.
  pose proof (contents_rewrite_at (hrefs ++ wrefs) new ds Hnd) as H.
  rewrite !contents_app, rewrite_records_app in H.
  apply app_inj_1 in H; [by destruct H|].
  by rewrite length_rewrite_records, !length_contents.
Qed.

(** ** The serialised records *)

Lemma Message_dict_role m : Message_dict m !! "role" = Some (VStr (msg_role m)).
Proof.
  unfold Message_dict, set_if_present.
  destruct (msg_function_call m), (msg_name m), (msg_content m); simpl;
    by repeat (rewrite lookup_insert_ne by done); rewrite lookup_insert_eq.
Qed.

Lemma Message_dict_content m :
  Message_dict m !! "content" = VStr <$> msg_content m.
Proof.
  unfold Message_dict, set_if_present.
  destruct (msg_function_call m), (msg_name m), (msg_content m); simpl;
    repeat (rewrite lookup_insert_ne by done);
    by rewrite ?lookup_insert_eq, ?lookup_empty.
Qed.

Lemma Message_dict_not_blank m : ¬ blank (Message_dict m).
Proof. intros [Hr _]. by rewrite Message_dict_role in Hr. Qed.

Lemma Message_dict_has_role m : has_role (Message_dict m).
Proof. unfold has_role. rewrite Message_dict_role. eauto. Qed.

(** ** The accumulator-aware append *)

Lemma pending_flushed n : pending (flushed n) = [].
Proof. by destruct n as [h f [r|] [c|]]. Qed.

Lemma flushed_idemp n : flushed (flushed n) = flushed n.
Proof. by destruct n as [h f [r|] [c|]]. Qed.

Lemma history_flushed n : history (flushed n) = history n.
Proof. by destruct n as [h f [r|] [c|]]. Qed.

Lemma functions_flushed n : functions (flushed n) = functions n.
Proof. by destruct n as [h f [r|] [c|]]. Qed.

(** [add_single_message] always returns; it extends the history by new
    dicts for the pending record, if there is a complete one, and for the
    message. *)
Lemma add_single_message_run msg s :
  add_single_message msg s =
    (Return (),
     mkState (flushed (self s))
       (append_to (history (self s))
          (alloc_all (pending (self s) ++ [Message_dict msg]) (dicts s)).1 (heap s))
       (alloc_all (pending (self s) ++ [Message_dict msg]) (dicts s)).2
       (trace s)).
Proof.
  destruct s as [[h f [r|] [c|]] hp ds tr]; run; try reflexivity.
  by rewrite append_to_app.
Qed.

Lemma commit_loop_run msgs s :
  for_each msgs add_single_message s =
    (Return (),
     mkState (match msgs with [] => self s | _ :: _ => flushed (self s) end)
       (append_to (history (self s))
          (alloc_all (commits (self s) msgs) (dicts s)).1 (heap s))
       (alloc_all (commits (self s) msgs) (dicts s)).2
       (trace s)).
Proof.
  revert s. induction msgs as [|m msgs IH]; intros s.
  - cbn. rewrite append_to_nil. by destruct s.
  - cbn [for_each]. unfold mbind, M_bind, bind.
    rewrite add_single_message_run, IH. cbn [self heap dicts trace].
    rewrite history_flushed, append_to_app.
    assert (commits (self s) (m :: msgs)
            = (pending (self s) ++ [Message_dict m]) ++ commits (flushed (self s)) msgs)
      as ->.
    { unfold commits. rewrite pending_flushed.
      destruct msgs; cbn; by rewrite <- ?app_assoc, ?app_nil_r. }
    rewrite !alloc_all_app. cbn [fst snd].
    do 2 f_equal. destruct msgs; [done | apply flushed_idemp].
Qed.

Lemma window_loop_run (c : loc) msgs s :
  for_each msgs (λ msg, d ← new_dict (Message_dict msg); list_append c d) s =
    (Return (),
     mkState (self s)
       (append_to c (alloc_all (Message_dict <$> msgs) (dicts s)).1 (heap s))
       (alloc_all (Message_dict <$> msgs) (dicts s)).2
       (trace s)).
Proof.
  revert s. induction msgs as [|m msgs IH]; intros s.
  - cbn. rewrite append_to_nil. by destruct s.
  - cbn [for_each]. run.
    rewrite IH. cbn. by rewrite append_to_app.
Qed.

(** [add_role]: the new role is set; a complete accumulator is handed to
    [add_single_message], which flushes it and then appends it. *)
Lemma add_role_run r s :
  add_role r s =
    (Return (),
     mkState (mkNode (history (self s)) (functions (self s)) (Some r)
                (if complete_pending (self s) then None else cur_content (self s)))
       (append_to (history (self s))
          (alloc_all (pending (self s) ++ pending (self s)) (dicts s)).1 (heap s))
       (alloc_all (pending (self s) ++ pending (self s)) (dicts s)).2
       (trace s)).
Proof.
  destruct s as [[h f [r0|] [c0|]] hp ds tr]; run.
  all: try (rewrite append_to_nil; reflexivity).
  by rewrite add_single_message_run.
Qed.

Lemma add_content_run c s :
  add_content c s =
    (Return (),
     mkState (mkNode (history (self s)) (functions (self s)) (cur_role (self s))
                (Some (default "" (cur_content (self s)) +:+ c)))
             (heap s) (dicts s) (trace s)).
Proof. by destruct s as [[h f r [c0|]] hp ds tr]; run. Qed.

Lemma add_function_run fd s :
  add_function fd s =
    (Return (),
     mkState (self s)
       (append_to (functions (self s))
          (alloc_all [FunctionDefinition_dict fd] (dicts s)).1 (heap s))
       (alloc_all [FunctionDefinition_dict fd] (dicts s)).2
       (trace s)).
Proof. reflexivity. Qed.

(** ** Well-formed nodes *)

Lemma node_wf_init hp ds tr : node_wf (__init__ hp ds tr).
Proof.
  unfold node_wf, __init__. cbn [self heap dicts history functions].
  set (h := fresh (dom hp)). set (f := fresh (dom (<[h:=[]]> hp))).
  assert (is_Some (<[h:=[]]> hp !! h)) as Hh by (rewrite lookup_insert_eq; eauto).
  pose proof (fresh_not_allocated _ _ Hh) as Hne. fold f in Hne.
  rewrite lookup_total_insert_eq.
  rewrite (lookup_total_insert_ne _ f h) by done.
  rewrite lookup_total_insert_eq.
  split_and!; try by constructor.
  - by rewrite lookup_insert_ne.
  - rewrite lookup_insert_eq; eauto.
  - done.
Qed.

Lemma buffer_init hp ds tr : buffer (__init__ hp ds tr) = [].
Proof.
  unfold buffer, __init__. cbn [self heap history].
  set (h := fresh (dom hp)).
  assert (is_Some (<[h:=[]]> hp !! h)) as Hh by (rewrite lookup_insert_eq; eauto).
  pose proof (fresh_not_allocated _ _ Hh) as Hne.
  by rewrite lookup_total_insert_ne, lookup_total_insert_eq.
Qed.

Lemma registry_init hp ds tr : registry (__init__ hp ds tr) = [].
Proof. unfold registry, __init__. cbn. by rewrite lookup_total_insert_eq. Qed.

(** New dicts appended to the history: the node stays well formed, the
    buffer is the old one followed by the new records, and the registry is
    as it was. *)
Lemma history_push s r c xs tr :
  node_wf s →
  let s' := mkState (mkNode (history (self s)) (functions (self s)) r c)
              (append_to (history (self s)) (alloc_all xs (dicts s)).1 (heap s))
              (alloc_all xs (dicts s)).2 tr in
  node_wf s' ∧ buffer s' = buffer s ++ xs ∧ registry s' = registry s.
Proof.
  intros (Hh & Hf & Hhf & Hnd & Hha & Hfa & Hdis). cbv zeta.
  unfold node_wf, buffer, registry.
  cbn [self heap dicts history functions].
  rewrite lookup_total_append_to, lookup_total_append_to_ne by done.
  split_and!.
  - by apply is_Some_append_to.
  - by apply is_Some_append_to.
  - done.
  - by apply NoDup_alloc_all.
  - apply allocated_app. split;
      [by apply allocated_alloc_all | apply alloc_all_allocated].
  - by apply allocated_alloc_all.
  - rewrite Forall_forall in Hdis |- *. intros x Hx Hin.
    apply elem_of_app in Hin as [Hin|Hin]; [by apply (Hdis x)|].
    pose proof (alloc_all_not_in xs (dicts s) _ Hfa) as Hn.
    rewrite Forall_forall in Hn. by apply (Hn x Hin).
  - rewrite contents_app, alloc_all_contents. f_equal.
    by apply contents_alloc_all.
  - by apply contents_alloc_all.
Qed.

(** New dicts appended to the registry. *)
Lemma registry_push s xs tr :
  node_wf s →
  let s' := mkState (self s)
              (append_to (functions (self s)) (alloc_all xs (dicts s)).1 (heap s))
              (alloc_all xs (dicts s)).2 tr in
  node_wf s' ∧ registry s' = registry s ++ xs ∧ buffer s' = buffer s.
Proof.
  intros (Hh & Hf & Hhf & Hnd & Hha & Hfa & Hdis). cbv zeta.
  unfold node_wf, buffer, registry.
  cbn [self heap dicts history functions].
  rewrite lookup_total_append_to, lookup_total_append_to_ne by done.
  split_and!.
  - by apply is_Some_append_to.
  - by apply is_Some_append_to.
  - done.
  - done.
  - by apply allocated_alloc_all.
  - apply allocated_app. split;
      [by apply allocated_alloc_all | apply alloc_all_allocated].
  - apply Forall_app. split; [done|]. by apply alloc_all_not_in.
  - rewrite contents_app, alloc_all_contents. f_equal.
    by apply contents_alloc_all.
  - by apply contents_alloc_all.
Qed.

Lemma flushed_eta n :
  flushed n = mkNode (history n) (functions n)
                     (if complete_pending n then None else cur_role n)
                     (if complete_pending n then None else cur_content n).
Proof. by destruct n as [h f [r|] [c|]]. Qed.

Lemma add_single_message_buffer msg s :
  node_wf s →
  node_wf (add_single_message msg s).2 ∧
  buffer (add_single_message msg s).2 = buffer s ++ pending (self s) ++ [Message_dict msg].
Proof.
  intros Hwf. rewrite add_single_message_run, flushed_eta. cbn [snd].
  by destruct (history_push s
                 (if complete_pending (self s) then None else cur_role (self s))
                 (if complete_pending (self s) then None else cur_content (self s))
                 (pending (self s) ++ [Message_dict msg]) (trace s) Hwf)
    as (? & ? & _).
Qed.

Lemma add_role_buffer r s :
  node_wf s →
  node_wf (add_role r s).2 ∧
  buffer (add_role r s).2 = buffer s ++ pending (self s) ++ pending (self s).
Proof.
  intros Hwf. rewrite add_role_run. cbn [snd].
  by destruct (history_push s (Some r)
                 (if complete_pending (self s) then None else cur_content (self s))
                 (pending (self s) ++ pending (self s)) (trace s) Hwf)
    as (? & ? & _).
Qed.

Lemma add_content_buffer c s :
  node_wf s →
  node_wf (add_content c s).2 ∧ buffer (add_content c s).2 = buffer s.
Proof.
  intros Hwf. rewrite add_content_run. cbn [snd].
  destruct (history_push s (cur_role (self s))
              (Some (default "" (cur_content (self s)) +:+ c)) [] (trace s) Hwf)
    as (Hwf' & Hbuf & _).
  cbn [alloc_all fst snd] in Hwf', Hbuf. rewrite append_to_nil in Hwf', Hbuf.
  by rewrite app_nil_r in Hbuf.
Qed.

Lemma pending_incomplete n : complete_pending n = false → pending n = [].
Proof. by destruct n as [h f [r|] [c|]]. Qed.

(** C1, as the code runs it.  From a fresh node, [add_role "user";
    add_content "a"; add_content "b"; add_role "assistant"] leaves TWO records
    {role: "user", content: "ab"} in the buffer, where the claim says exactly
    one: [add_role] hands the complete accumulator to [add_single_message],
    which flushes the accumulator itself and then appends the message it was
    given.  The accumulator ends with role "assistant" and no content. *)
Theorem accumulator_round_trip_appends_twice :
  let r := (add_role "user";; add_content "a";; add_content "b";;
            add_role "assistant") fresh_node in
  r.1 = Return () ∧
  buffer r.2 = [Message_dict (Message_of "user" "ab");
                Message_dict (Message_of "user" "ab")] ∧
  cur_role (self r.2) = Some "assistant" ∧
  cur_content (self r.2) = None.
Proof. cbv zeta. split_and!; vm_compute; reflexivity. Qed.

(** C6, as stated, fails: [add_role] on an accumulator that holds content but
    no role keeps the content. *)
Lemma begin_role_keeps_content_without_role :
  ¬ (∀ s r, node_wf s → cur_content (self (add_role r s).2) = None).
Proof.
  intros H. specialize (H node_with_content_only "user").
  assert (node_wf node_with_content_only) as Hwf by concrete_wf.
  specialize (H Hwf). vm_compute in H. discriminate H.
Qed.

(** C6, amended.  [add_role r] always returns and sets the role to [r].
    When both role and content were set, the completed message is flushed
    into the buffer (every record appended is that message, and there is at
    least one) and the pending content is cleared.  When one of them was
    absent, the buffer is unchanged and the pending content is kept. *)
Theorem begin_role_flushes_complete_accumulator s r :
  node_wf s →
  let s' := (add_role r s).2 in
  (add_role r s).1 = Return () ∧
  cur_role (self s') = Some r ∧
  match cur_role (self s), cur_content (self s) with
  | Some r0, Some c0 =>
      cur_content (self s') = None ∧
      ∃ ext, buffer s' = buffer s ++ ext ∧ ext ≠ [] ∧
             ∀ d, d ∈ ext → d = Message_dict (Message_of r0 c0)
  | _, _ =>
      cur_content (self s') = cur_content (self s) ∧ buffer s' = buffer s
  end.
Proof.
  intros Hwf. cbv zeta.
  destruct (add_role_buffer r s Hwf) as [_ Hbuf]. rewrite Hbuf.
  rewrite add_role_run. cbn [fst snd self cur_role cur_content].
  split_and!; [done..|].
  unfold pending, complete_pending.
  destruct (cur_role (self s)) as [r0|], (cur_content (self s)) as [c0|];
    try (split; [done | by rewrite app_nil_r]).
  split; [done|]. eexists. split; [done|]. split; [done|].
  intros d Hd. cbn in Hd. rewrite !elem_of_cons, elem_of_nil in Hd.
  by destruct Hd as [->|[->|[]]].
Qed.

Lemma begin_role_flushes_complete_accumulator_witness :
  node_wf node_with_pending ∧
  let s' := (add_role "assistant" node_with_pending).2 in
  cur_role (self s') = Some "assistant" ∧ cur_content (self s') = None.
Proof.
  assert (node_wf node_with_pending) as Hwf by concrete_wf.
  split; [exact Hwf|].
  pose proof (begin_role_flushes_complete_accumulator node_with_pending "assistant" Hwf) as H.
  cbv zeta in H. destruct H as (_ & Hr & Hc).
  split; [exact Hr|].
  change (cur_role (self node_with_pending)) with (Some "user") in Hc.
  change (cur_content (self node_with_pending)) with (Some "x") in Hc.
  exact (proj1 Hc).
Defined.

(** ** The gateway *)

Lemma bind_run {A B} (c : M A) (k : A → M B) s a s' :
  c s = (Return a, s') → (c ≫= k) s = k a s'.
Proof. intros H. unfold mbind, M_bind, bind. by rewrite H. Qed.

Lemma history_committed input msgs n :
  history (committed input msgs n) = history n.
Proof.
  unfold committed. destruct (append_history input), msgs;
    by rewrite ?history_flushed.
Qed.

Lemma functions_committed input msgs n :
  functions (committed input msgs n) = functions n.
Proof.
  unfold committed. destruct (append_history input), msgs;
    by rewrite ?functions_flushed.
Qed.

Section GatewayFacts.

Variable tt_trim : list pydict → string → TrimEffect * (Exception + list pydict).
Variable ChatCompletion_create : Kwargs → Exception + Response.

#[local] Abbreviation make_completion :=
  (_make_completion tt_trim ChatCompletion_create).

(** The three allocations of a call (the seed if there is one, the history
    commits, the window's copies of the new messages) give references that
    are new, distinct from one another and from everything live. *)
Lemma three_allocations ds hrefs frefs xs0 cm ws :
  NoDup hrefs → allocated ds hrefs → allocated ds frefs →
  let a0 := alloc_all xs0 ds in
  let a1 := alloc_all cm a0.2 in
  let a2 := alloc_all ws a1.2 in
  NoDup (hrefs ++ a0.1 ++ a1.1 ++ a2.1) ∧
  contents a2.2 hrefs = contents ds hrefs ∧
  contents a2.2 frefs = contents ds frefs ∧
  contents a2.2 a0.1 = xs0 ∧ contents a2.2 a1.1 = cm ∧ contents a2.2 a2.1 = ws ∧
  allocated a2.2 (hrefs ++ a0.1 ++ a1.1 ++ a2.1) ∧
  allocated a2.2 frefs ∧
  Forall (λ r, r ∉ frefs) (a0.1 ++ a1.1 ++ a2.1).
Proof.
  intros Hnd Hh Hf. cbv zeta.
  pose proof (alloc_all_app xs0 (cm ++ ws) ds) as E.
  rewrite (alloc_all_app cm ws) in E. cbn [fst snd] in E.
  pose proof (f_equal fst E) as E1. pose proof (f_equal snd E) as E2.
  cbn [fst snd] in E1, E2. clear E.
  rewrite <- E1, <- E2.
  split_and!.
  - by apply NoDup_alloc_all.
  - by apply contents_alloc_all.
  - by apply contents_alloc_all.
  - pose proof (alloc_all_contents (xs0 ++ cm ++ ws) ds) as Hc.
    rewrite E1, E2, !contents_app in Hc. rewrite E2.
    apply app_inj_1 in Hc as [Hc _]; [done|].
    by rewrite length_contents, length_alloc_all.
  - pose proof (alloc_all_contents (xs0 ++ cm ++ ws) ds) as Hc.
    rewrite E1, E2, !contents_app in Hc. rewrite E2.
    apply app_inj_1 in Hc as [_ Hc];
      [|by rewrite length_contents, length_alloc_all].
    apply app_inj_1 in Hc as [Hc _]; [done|].
    by rewrite length_contents, length_alloc_all.
  - pose proof (alloc_all_contents (xs0 ++ cm ++ ws) ds) as Hc.
    rewrite E1, E2, !contents_app in Hc. rewrite E2.
    apply app_inj_1 in Hc as [_ Hc];
      [|by rewrite length_contents, length_alloc_all].
    apply app_inj_1 in Hc as [_ Hc]; [done|].
    by rewrite length_contents, length_alloc_all.
  - apply allocated_app. split;
      [by apply allocated_alloc_all | apply alloc_all_allocated].
  - by apply allocated_alloc_all.
  - by apply alloc_all_not_in.
Qed.

Lemma NoDup_app_not_in {A} (l k : list A) x :
  NoDup (l ++ k) → x ∈ l → x ∉ k.
Proof. intros H. apply NoDup_app in H as (_ & H & _). apply H. Qed.

(** The state after the trim of a call on a well-formed node. *)
Lemma after_trim_spec msgs input s :
  node_wf s →
  let s4 := after_trim tt_trim msgs input s in
  let c := fresh (dom (heap s)) in
  let w := window_of (buffer s) msgs in
  node_wf s4 ∧
  self s4 = committed input msgs (self s) ∧
  buffer s4 = history_after_trim tt_trim msgs input s
                ++ history_commits input (self s) msgs ∧
  registry s4 = registry s ∧
  trace s4 = trace s ++ [EvTrim w (model input)] ∧
  (∃ new_refs,
     heap s4 !!! history (self s) = heap s !!! history (self s) ++ new_refs ∧
     length new_refs = length (history_commits input (self s) msgs)) ∧
  heap s !! c = None ∧ c ≠ history (self s) ∧
  (∃ wr, heap s4 !! c
           = Some (omap (λ i, wr !! i) (te_kept (tt_trim w (model input)).1)) ∧
         length wr = length w).
Proof.
  intros (Hh & Hf & Hhf & Hnd & Hha & Hfa & Hdis). cbv zeta.
  unfold after_trim, history_after_trim, buffer, registry.
  set (h := history (self s)) in *. set (f := functions (self s)) in *.
  set (hrefs := heap s !!! h) in *. set (frefs := heap s !!! f) in *.
  set (c := fresh (dom (heap s))).
  set (xs0 := if decide (length hrefs = 0)
              then [Message_dict default_system_message] else []).
  set (cm := history_commits input (self s) msgs).
  set (ws := Message_dict <$> msgs).
  destruct (three_allocations (dicts s) hrefs frefs xs0 cm ws Hnd Hha Hfa)
    as (Hbig & Hch & Hcf & Hc0 & Hc1 & Hc2 & Hall & Hallf & Hfresh).
  cbv zeta in Hbig, Hch, Hcf, Hc0, Hc1, Hc2, Hall, Hallf, Hfresh.
  set (a0 := alloc_all xs0 (dicts s)) in *.
  set (a1 := alloc_all cm a0.2) in *.
  set (a2 := alloc_all ws a1.2) in *.
  set (wr := hrefs ++ a0.1 ++ a2.1).
  assert (Hhc : h ≠ c) by by apply fresh_not_allocated.
  assert (Hfc : f ≠ c) by by apply fresh_not_allocated.
  assert (HW : contents a2.2 wr = window_of (contents (dicts s) hrefs) msgs).
  { unfold wr. rewrite !contents_app, Hch, Hc0, Hc2. unfold window_of, xs0.
    rewrite length_contents. case_decide as Hlen; [|by rewrite app_nil_l].
    by rewrite (nil_length_inv _ Hlen). }
  rewrite HW.
  set (w := window_of (contents (dicts s) hrefs) msgs).
  set (eff := (tt_trim w (model input)).1).
  assert (Hndw : NoDup wr).
  { unfold wr. eapply sublist_NoDup; [exact Hbig|].
    apply sublist_app; [done|]. apply sublist_app; [done|].
    by apply sublist_inserts_l. }
  assert (Hndh : NoDup (hrefs ++ a1.1)).
  { eapply sublist_NoDup; [exact Hbig|].
    apply sublist_app; [done|]. apply sublist_inserts_l.
    by apply sublist_inserts_r. }
  assert (H1w : Forall (λ r, r ∉ wr) a1.1).
  { apply Forall_forall. intros r Hr Hin. unfold wr in Hin.
    apply NoDup_app in Hbig as (_ & Hb1 & Hb2).
    apply NoDup_app in Hb2 as (_ & Hb2 & Hb3).
    apply NoDup_app in Hb3 as (_ & Hb3 & _).
    apply elem_of_app in Hin as [Hin|Hin].
    { apply (Hb1 r Hin). apply elem_of_app. right. apply elem_of_app. by left. }
    apply elem_of_app in Hin as [Hin|Hin].
    { apply (Hb2 r Hin). apply elem_of_app. by left. }
    by apply (Hb3 r Hr). }
  assert (Hfw : Forall (λ r, r ∉ wr) frefs).
  { apply Forall_forall. intros r Hr Hin. unfold wr in Hin.
    rewrite Forall_forall in Hdis, Hfresh.
    apply elem_of_app in Hin as [Hin|Hin]; [by apply (Hdis r Hr)|].
    apply (Hfresh r); [|done].
    apply elem_of_app in Hin as [Hin|Hin]; apply elem_of_app;
      [by left | right; apply elem_of_app; by right]. }
  apply allocated_app in Hall as [Hallh Hall'].
  apply allocated_app in Hall' as [_ Hall'].
  apply allocated_app in Hall' as [Hall1 _].
  cbn [self heap dicts trace].
  rewrite history_committed, functions_committed. fold h f.
  rewrite !(lookup_total_insert_ne _ c) by done.
  rewrite lookup_total_append_to, lookup_total_append_to_ne by done.
  fold hrefs frefs.
  split_and!.
  - unfold node_wf. cbn [self heap dicts].
    rewrite history_committed, functions_committed. fold h f.
    rewrite !(lookup_total_insert_ne _ c) by done.
    rewrite !(lookup_insert_ne _ c) by done.
    rewrite lookup_total_append_to, lookup_total_append_to_ne by done.
    fold hrefs frefs.
    split_and!; [by apply is_Some_append_to | by apply is_Some_append_to
                 | done | done | | | ].
    + eapply allocated_mono; [intros r; apply rewrite_at_live|].
      by apply allocated_app.
    + eapply allocated_mono; [intros r; apply rewrite_at_live|]. done.
    + apply Forall_forall. intros r Hr Hin.
      rewrite Forall_forall in Hdis, Hfresh.
      apply elem_of_app in Hin as [Hin|Hin]; [by apply (Hdis r Hr)|].
      apply (Hfresh r); [|done].
      apply elem_of_app. right. apply elem_of_app. by left.
  - done.
  - rewrite contents_app. f_equal.
    + unfold wr. rewrite contents_rewrite_at_prefix by done. by rewrite Hch.
    + by rewrite contents_rewrite_at_other.
  - by rewrite contents_rewrite_at_other.
  - done.
  - exists a1.1. split; [done|].
    by rewrite <- Hc1, length_contents.
  - apply lookup_fresh.
  - done.
  - exists wr. rewrite lookup_insert_eq. split; [done|].
    subst w. by rewrite <- HW, length_contents.
Qed.

(** The whole run of the gateway on a well-formed node. *)
Lemma make_completion_run msgs input s :
  node_wf s →
  let w := window_of (buffer s) msgs in
  let s4 := after_trim tt_trim msgs input s in
  make_completion msgs input s =
    match (tt_trim w (model input)).2 with
    | inl e => (Raise e, s4)
    | inr trimmed =>
        let kw := request_of input trimmed (registry s) in
        let s5 := with_event (EvCreate kw) s4 in
        match ChatCompletion_create kw with
        | inl e => (Return (Plain (error_response e)), s5)
        | inr response =>
            ((respond input response).1,
             push_history (respond input response).2 s5)
        end
    end.
Proof.
  intros Hwf. cbv zeta.
  destruct (after_trim_spec msgs input s Hwf)
    as (Hwf4 & Hself4 & _ & Hreg4 & _).
  cbv zeta in Hwf4, Hself4, Hreg4.
  destruct Hwf as (Hh & Hf & Hhf & Hnd & Hha & Hfa & Hdis).
  revert Hwf4 Hself4 Hreg4.
  unfold after_trim, buffer, registry.
  set (h := history (self s)) in *. set (f := functions (self s)) in *.
  set (hrefs := heap s !!! h) in *. set (frefs := heap s !!! f) in *.
  set (c := fresh (dom (heap s))).
  set (xs0 := if decide (length hrefs = 0)
              then [Message_dict default_system_message] else []).
  set (cm := history_commits input (self s) msgs).
  set (ws := Message_dict <$> msgs).
  destruct (three_allocations (dicts s) hrefs frefs xs0 cm ws Hnd Hha Hfa)
    as (_ & Hch & _ & Hc0 & _ & Hc2 & _).
  cbv zeta in Hch, Hc0, Hc2.
  set (a0 := alloc_all xs0 (dicts s)) in *.
  set (a1 := alloc_all cm a0.2) in *.
  set (a2 := alloc_all ws a1.2) in *.
  set (wr := hrefs ++ a0.1 ++ a2.1).
  assert (Hhc : h ≠ c) by by apply fresh_not_allocated.
  assert (HW : contents a2.2 wr = window_of (contents (dicts s) hrefs) msgs).
  { unfold wr. rewrite !contents_app, Hch, Hc0, Hc2. unfold window_of, xs0.
    rewrite length_contents. case_decide as Hlen; [|by rewrite app_nil_l].
    by rewrite (nil_length_inv _ Hlen). }
  rewrite HW.
  set (w := window_of (contents (dicts s) hrefs) msgs).
  intros Hwf4 Hself4 Hreg4.
  unfold _make_completion.
  erewrite bind_run by reflexivity.
  erewrite bind_run by reflexivity.
  erewrite bind_run by reflexivity.
  cbn [self heap dicts trace]. fold c h.
  rewrite (lookup_total_insert_ne _ c h) by done. fold hrefs.
  erewrite (bind_run _ _ _ ()
              (mkState (self s) (<[c := hrefs ++ a0.1]> (heap s)) a0.2 (trace s))).
  2:{ subst a0 xs0. case_decide as Hlen.
      - rewrite (nil_length_inv _ Hlen). run. by rewrite append_to_insert_eq.
      - run. by rewrite append_to_insert_eq, app_nil_r. }
  erewrite (bind_run _ _ _ ()
              (mkState (committed input msgs (self s))
                 (<[c := hrefs ++ a0.1]> (append_to h a1.1 (heap s))) a1.2
                 (trace s))).
  2:{ subst a1 cm. unfold committed, history_commits.
      destruct (append_history input).
      - rewrite commit_loop_run. cbn [self heap dicts trace]. fold h.
        by rewrite append_to_insert_ne.
      - cbn. by rewrite append_to_nil. }
  erewrite bind_run by apply window_loop_run.
  cbn [self heap dicts trace].
  rewrite append_to_insert_eq, <- app_assoc. fold ws a2 wr.
  set (s4 := mkState (committed input msgs (self s))
               (<[c := omap (λ i, wr !! i) (te_kept (tt_trim w (model input)).1)]>
                  (append_to h a1.1 (heap s)))
               (rewrite_at wr (te_records (tt_trim w (model input)).1) a2.2)
               (trace s ++ [EvTrim w (model input)])) in *.
  assert (Htrim :
    trim tt_trim c (model input)
      (mkState (committed input msgs (self s))
         (<[c := wr]> (append_to h a1.1 (heap s))) a2.2 (trace s))
    = match (tt_trim w (model input)).2 with
      | inl e => (Raise e, s4)
      | inr trimmed => (Return trimmed, s4)
      end).
  { unfold trim.
    erewrite bind_run by reflexivity.
    erewrite bind_run by reflexivity.
    erewrite bind_run by reflexivity.
    cbn [self heap dicts trace].
    rewrite lookup_total_insert_eq, HW. fold w. subst s4.
    destruct (tt_trim w (model input)) as [eff [e|trimmed]]; cbn [fst snd];
      run; by rewrite alter_insert_eq. }
  unfold mbind at 1, M_bind at 1, bind at 1. rewrite Htrim. clear Htrim.
  destruct (tt_trim w (model input)).2 as [e|trimmed]; [reflexivity|].
  erewrite bind_run by reflexivity.
  erewrite bind_run by reflexivity.
  erewrite bind_run by reflexivity.
  rewrite Hreg4.
  set (kw := request_of input trimmed (contents (dicts s) frefs)).
  match goal with
  | |- context [try_create _ ?k] =>
      replace k with kw
        by (unfold kw, request_of;
            destruct (use_streaming input),
              (decide (0 < length (contents (dicts s) frefs)));
            reflexivity)
  end.
  unfold try_create.
  erewrite bind_run by reflexivity.
  change (mkState (self s4) (heap s4) (dicts s4) (trace s4 ++ [EvCreate kw]))
    with (with_event (EvCreate kw) s4).
  set (s5 := with_event (EvCreate kw) s4).
  destruct (ChatCompletion_create kw) as [e|response]; [reflexivity|].
  assert (Hnil : push_history [] s5 = s5).
  { unfold push_history. cbn [alloc_all fst snd].
    rewrite append_to_nil. by destruct s5. }
  unfold respond, first_choice, OpenAIResp_new, OpenAIStreamingResp_new.
  destruct (choices response) as [|ch chs];
    [ destruct (use_streaming input); cbn [fst snd]; rewrite Hnil; reflexivity |].
  destruct (use_streaming input).
  - erewrite bind_run by reflexivity.
    destruct (choice_delta ch) as [d|];
      [|cbn [fst snd]; rewrite Hnil; reflexivity].
    destruct (append_history input); [reflexivity|].
    cbn [fst snd]. rewrite Hnil. reflexivity.
  - erewrite bind_run by reflexivity.
    destruct (choice_message ch) as [m|], (choice_finish_reason ch) as [fr|];
      try (cbn [fst snd]; rewrite Hnil; reflexivity).
    destruct (append_history input); [reflexivity|].
    cbn [fst snd]. rewrite Hnil. reflexivity.
Qed.

Lemma node_wf_with_event e s : node_wf s → node_wf (with_event e s).
Proof. done. Qed.

(** New dicts appended to the history of a well-formed node. *)
Lemma push_history_spec xs s :
  node_wf s →
  node_wf (push_history xs s) ∧
  buffer (push_history xs s) = buffer s ++ xs ∧
  registry (push_history xs s) = registry s ∧
  self (push_history xs s) = self s ∧
  trace (push_history xs s) = trace s ∧
  (∃ new_refs,
     heap (push_history xs s) !!! history (self s)
       = heap s !!! history (self s) ++ new_refs) ∧
  (∀ l, l ≠ history (self s) → heap (push_history xs s) !! l = heap s !! l).
Proof.
  intros Hwf.
  destruct (history_push s (cur_role (self s)) (cur_content (self s)) xs
              (trace s) Hwf) as (Hwf' & Hbuf & Hreg).
  cbv zeta in Hwf', Hbuf, Hreg.
  assert (mkNode (history (self s)) (functions (self s)) (cur_role (self s))
            (cur_content (self s)) = self s) as Heta by by destruct (self s).
  rewrite Heta in Hwf', Hbuf, Hreg.
  split_and!; try done.
  - eexists. unfold push_history. cbn [heap].
    destruct Hwf as (Hh & _). by rewrite lookup_total_append_to.
  - intros l Hl. unfold push_history. cbn [heap].
    by rewrite lookup_append_to, decide_False.
Qed.

Lemma length_history_after_trim msgs input s :
  length (history_after_trim tt_trim msgs input s) = length (buffer s).
Proof. apply length_rewrite_records. Qed.

(** A trim that rewrites no dict leaves the history's records as they
    were. *)
Lemma history_after_trim_untouched msgs input s :
  te_records (tt_trim (window_of (buffer s) msgs) (model input)).1 = [] →
  history_after_trim tt_trim msgs input s = buffer s.
Proof. unfold history_after_trim. intros ->. apply rewrite_records_nil. Qed.


(** What a run of the gateway returns and leaves, read off the three ways
    the outside can behave: [tt.trim] raises, the vendor call raises, the
    vendor answers.  The history list is only extended; its first records
    are those the trim left in the dicts of the history. *)
Lemma make_completion_summary msgs input s :
  node_wf s →
  let r := make_completion msgs input s in
  let w := window_of (buffer s) msgs in
  let kept := history_after_trim tt_trim msgs input s in
  node_wf r.2 ∧
  self r.2 = committed input msgs (self s) ∧
  registry r.2 = registry s ∧
  (∃ new_refs,
     heap r.2 !!! history (self s) = heap s !!! history (self s) ++ new_refs) ∧
  (∃ wr, heap r.2 !! fresh (dom (heap s))
           = Some (omap (λ i, wr !! i) (te_kept (tt_trim w (model input)).1)) ∧
         length wr = length w) ∧
  match (tt_trim w (model input)).2 with
  | inl e =>
      r.1 = Raise e ∧
      trace r.2 = trace s ++ [EvTrim w (model input)] ∧
      buffer r.2 = kept ++ history_commits input (self s) msgs
  | inr trimmed =>
      let kw := request_of input trimmed (registry s) in
      trace r.2 = trace s ++ [EvTrim w (model input); EvCreate kw] ∧
      match ChatCompletion_create kw with
      | inl e =>
          r.1 = Return (Plain (error_response e)) ∧
          buffer r.2 = kept ++ history_commits input (self s) msgs
      | inr response =>
          r.1 = (respond input response).1 ∧
          buffer r.2 =
            kept ++ history_commits input (self s) msgs
                 ++ (respond input response).2
      end
  end.
Proof.
  intros Hwf. cbv zeta. rewrite (make_completion_run _ _ _ Hwf). cbv zeta.
  destruct (after_trim_spec msgs input s Hwf)
    as (Hwf4 & Hself4 & Hbuf4 & Hreg4 & Htr4 & (nr & Hrefs4 & _) & Hc & Hch & Hwin4).
  cbv zeta in Hwf4, Hself4, Hbuf4, Hreg4, Htr4, Hrefs4, Hwin4.
  set (s4 := after_trim tt_trim msgs input s) in *.
  set (w := window_of (buffer s) msgs) in *.
  assert (Hh4 : history (self s4) = history (self s))
    by (rewrite Hself4; apply history_committed).
  destruct (tt_trim w (model input)).2 as [e|trimmed]; cbn [fst snd].
  { split_and!; try done. by exists nr. }
  set (kw := request_of input trimmed (registry s)).
  set (s5 := with_event (EvCreate kw) s4).
  assert (Htr5 : trace s5 = trace s ++ [EvTrim w (model input); EvCreate kw]).
  { unfold s5, with_event. cbn [trace]. by rewrite Htr4, <- app_assoc. }
  destruct (ChatCompletion_create kw) as [e|response]; cbn [fst snd].
  { split_and!; try done. by exists nr. }
  destruct (push_history_spec (respond input response).2 s5
              (node_wf_with_event _ _ Hwf4))
    as (Hwf6 & Hbuf6 & Hreg6 & Hself6 & Htr6 & (nr6 & Hrefs6) & Hother6).
  split_and!.
  - done.
  - by rewrite Hself6.
  - by rewrite Hreg6.
  - exists (nr ++ nr6). change (self s5) with (self s4) in Hrefs6.
    rewrite Hh4 in Hrefs6. rewrite Hrefs6.
    change (heap s5) with (heap s4). by rewrite Hrefs4, app_assoc.
  - change (self s5) with (self s4) in Hother6. rewrite Hh4 in Hother6.
    rewrite Hother6 by done. exact Hwin4.
  - by rewrite Htr6.
  - done.
  - rewrite Hbuf6. change (buffer s5) with (buffer s4).
    by rewrite Hbuf4, <- app_assoc.
Qed.

(** The two events of [called_with] determine the window and the request. *)
Lemma called_with_inv msgs input s w kw :
  node_wf s →
  called_with s (make_completion msgs input s).2 w kw →
  w = window_of (buffer s) msgs ∧
  ∃ trimmed, (tt_trim w (model input)).2 = inr trimmed ∧
             kw = request_of input trimmed (registry s).
Proof.
  intros Hwf [mdl Htr].
  destruct (make_completion_summary msgs input s Hwf) as (_ & _ & _ & _ & _ & Hcase).
  cbv zeta in Hcase.
  destruct (tt_trim (window_of (buffer s) msgs) (model input)).2
    as [e|trimmed] eqn:Ht.
  - destruct Hcase as (_ & Htr' & _). rewrite Htr' in Htr.
    apply app_inv_head in Htr. discriminate Htr.
  - destruct Hcase as (Htr' & _). rewrite Htr' in Htr.
    apply app_inv_head in Htr. injection Htr as Hw _ Hkw. subst w kw.
    split; [done|]. by exists trimmed.
Qed.

(** A call that raised: the synthesized response is returned and the buffer
    holds the history commits, nothing more. *)
Lemma failed_call_run msgs input s w kw e :
  node_wf s →
  called_with s (make_completion msgs input s).2 w kw →
  ChatCompletion_create kw = inl e →
  (make_completion msgs input s).1 = Return (Plain (error_response e)) ∧
  buffer (make_completion msgs input s).2
    = history_after_trim tt_trim msgs input s
        ++ history_commits input (self s) msgs.
Proof.
  intros Hwf Hcall Hfail.
  destruct (called_with_inv _ _ _ _ _ Hwf Hcall) as (-> & trimmed & Ht & ->).
  destruct (make_completion_summary msgs input s Hwf) as (_ & _ & _ & _ & _ & Hcase).
  cbv zeta in Hcase. rewrite Ht, Hfail in Hcase. by destruct Hcase as (_ & ? & ?).
Qed.

(** A call that was answered. *)
Lemma answered_call_run msgs input s w kw response :
  node_wf s →
  called_with s (make_completion msgs input s).2 w kw →
  ChatCompletion_create kw = inr response →
  (make_completion msgs input s).1 = (respond input response).1 ∧
  buffer (make_completion msgs input s).2
    = history_after_trim tt_trim msgs input s
        ++ history_commits input (self s) msgs ++ (respond input response).2.
Proof.
  intros Hwf Hcall Hans.
  destruct (called_with_inv _ _ _ _ _ Hwf Hcall) as (-> & trimmed & Ht & ->).
  destruct (make_completion_summary msgs input s Hwf) as (_ & _ & _ & _ & _ & Hcase).
  cbv zeta in Hcase. rewrite Ht, Hans in Hcase. by destruct Hcase as (_ & ? & ?).
Qed.

Lemma respond_commit input response p :
  (respond input response).1 = Return p →
  (respond input response).2 = if append_history input then [resp_record p] else [].
Proof.
  unfold respond. destruct (choices response) as [|ch chs]; [done|].
  destruct (use_streaming input).
  - destruct (choice_delta ch); [|done]. cbn. by intros [= <-].
  - destruct (choice_message ch), (choice_finish_reason ch); try done.
    cbn. by intros [= <-].
Qed.

Lemma respond_raise input response e :
  (respond input response).1 = Raise e → (respond input response).2 = [].
Proof.
  unfold respond. destruct (choices response) as [|ch chs]; [done|].
  destruct (use_streaming input).
  - by destruct (choice_delta ch).
  - by destruct (choice_message ch), (choice_finish_reason ch).
Qed.

Lemma respond_streaming input response q :
  (respond input response).1 = Return (Streaming q) → use_streaming input = true.
Proof.
  unfold respond. destruct (choices response) as [|ch chs]; [done|].
  destruct (use_streaming input); [done|].
  by destruct (choice_message ch), (choice_finish_reason ch).
Qed.

(** C3.  Whenever the gateway made the external call and the call raised
    [e], the gateway returns normally: a non-streaming response whose message
    has role "system" and content "Error occurred: " followed by [str e],
    and whose finish_reason is "error". *)
Theorem external_failure_is_reported msgs input s w kw e :
  node_wf s →
  called_with s (make_completion msgs input s).2 w kw →
  ChatCompletion_create kw = inl e →
  ∃ p, (make_completion msgs input s).1 = Return (Plain p) ∧
       msg_role (message p) = "system" ∧
       msg_content (message p) = Some ("Error occurred: " +:+ str e) ∧
       finish_reason p = "error".
Proof.
  intros Hwf Hcall Hfail.
  destruct (failed_call_run _ _ _ _ _ _ Hwf Hcall Hfail) as [Hout _].
  by exists (error_response e).
Qed.


(** C10.  With [use_streaming] set, a call that raised yields the
    non-streaming shape, with finish_reason "error".  A streaming response is
    returned only when streaming was asked for and the vendor answered. *)
Theorem streaming_failure_has_plain_shape msgs input s :
  node_wf s →
  (∀ w kw e,
     use_streaming input = true →
     called_with s (make_completion msgs input s).2 w kw →
     ChatCompletion_create kw = inl e →
     (make_completion msgs input s).1 = Return (Plain (error_response e)) ∧
     finish_reason (error_response e) = "error") ∧
  (∀ q,
     (make_completion msgs input s).1 = Return (Streaming q) →
     use_streaming input = true ∧
     ∃ w kw response,
       called_with s (make_completion msgs input s).2 w kw ∧
       ChatCompletion_create kw = inr response).
Proof.
  intros Hwf. split.
  - intros w kw e _ Hcall Hfail.
    by destruct (failed_call_run _ _ _ _ _ _ Hwf Hcall Hfail) as [Hout _].
  - intros q Hq.
    destruct (make_completion_summary msgs input s Hwf) as (_ & _ & _ & _ & _ & Hcase).
    cbv zeta in Hcase.
    destruct (tt_trim (window_of (buffer s) msgs) (model input)).2
      as [e|trimmed] eqn:Ht.
    + destruct Hcase as (Hout & _). rewrite Hout in Hq. discriminate Hq.
    + destruct Hcase as (Htr & Hcase).
      destruct (ChatCompletion_create (request_of input trimmed (registry s)))
        as [e|response] eqn:Hc.
      * destruct Hcase as (Hout & _). rewrite Hout in Hq. discriminate Hq.
      * destruct Hcase as (Hout & _). rewrite Hout in Hq.
        split; [by eapply respond_streaming|].
        eexists _, _, response. split; [by eexists | done].
Qed.

(** C2, amended.  For a non-empty list of N new messages and
    [append_history] set: when the accumulator is not complete, the vendor
    answers and the answer validates into the response [p] that is returned,
    the buffer after the call is the stored history (its records as the trim
    left them, one for one: [history_after_trim], which is the old buffer
    when the trim rewrites no dict), then the N new messages in order, then
    the record of the response: N+1 entries longer. *)
Theorem history_grows_by_messages_and_response msgs input s w kw response p :
  node_wf s →
  msgs ≠ [] →
  append_history input = true →
  complete_pending (self s) = false →
  called_with s (make_completion msgs input s).2 w kw →
  ChatCompletion_create kw = inr response →
  (make_completion msgs input s).1 = Return p →
  buffer (make_completion msgs input s).2
    = history_after_trim tt_trim msgs input s
        ++ (Message_dict <$> msgs) ++ [resp_record p] ∧
  length (history_after_trim tt_trim msgs input s) = length (buffer s) ∧
  length (buffer (make_completion msgs input s).2)
    = length (buffer s) + length msgs + 1 ∧
  (te_records (tt_trim (window_of (buffer s) msgs) (model input)).1 = [] →
   buffer (make_completion msgs input s).2
     = buffer s ++ (Message_dict <$> msgs) ++ [resp_record p]).
Proof.
  intros Hwf Hne Hah Hinc Hcall Hans Hret.
  destruct (answered_call_run _ _ _ _ _ _ Hwf Hcall Hans) as [Hout Hbuf].
  rewrite Hout in Hret. rewrite (respond_commit _ _ _ Hret), Hah in Hbuf.
  unfold history_commits, commits in Hbuf.
  rewrite Hah, (pending_incomplete _ Hinc) in Hbuf.
  destruct msgs as [|m msgs]; [done|]. cbn [app] in Hbuf.
  rewrite Hbuf. split; [done|]. split; [apply length_history_after_trim|].
  split.
  - rewrite !length_app, length_fmap, length_history_after_trim. cbn. lia.
  - intros Hnone. by rewrite (history_after_trim_untouched _ _ _ Hnone).
Qed.

(** In general the history commits come first, the record of the response
    last; with a complete accumulator and a message to commit that is one
    entry more. *)
Lemma history_after_answer msgs input s w kw response p :
  node_wf s →
  append_history input = true →
  called_with s (make_completion msgs input s).2 w kw →
  ChatCompletion_create kw = inr response →
  (make_completion msgs input s).1 = Return p →
  buffer (make_completion msgs input s).2
    = history_after_trim tt_trim msgs input s
        ++ commits (self s) msgs ++ [resp_record p].
Proof.
  intros Hwf Hah Hcall Hans Hret.
  destruct (answered_call_run _ _ _ _ _ _ Hwf Hcall Hans) as [Hout Hbuf].
  rewrite Hout in Hret. rewrite (respond_commit _ _ _ Hret), Hah in Hbuf.
  unfold history_commits in Hbuf. by rewrite Hah in Hbuf.
Qed.

(** Whatever happens outside, the buffer after a call is the stored history
    as the trim left its records, then the history commits, then at most the
    record of the response that is returned. *)
Lemma buffer_after_call msgs input s :
  node_wf s →
  ∃ tail,
    buffer (make_completion msgs input s).2
      = history_after_trim tt_trim msgs input s
          ++ history_commits input (self s) msgs ++ tail ∧
    (tail = [] ∨
     ∃ p, (make_completion msgs input s).1 = Return p ∧
          append_history input = true ∧ tail = [resp_record p]).
Proof.
  intros Hwf.
  destruct (make_completion_summary msgs input s Hwf) as (_ & _ & _ & _ & _ & Hcase).
  cbv zeta in Hcase.
  destruct (tt_trim (window_of (buffer s) msgs) (model input)).2 as [e|trimmed].
  { destruct Hcase as (_ & _ & ->). exists []. rewrite app_nil_r. by split; [|left]. }
  destruct Hcase as (_ & Hcase).
  destruct (ChatCompletion_create (request_of input trimmed (registry s)))
    as [e|response].
  { destruct Hcase as (_ & ->). exists []. rewrite app_nil_r. by split; [|left]. }
  destruct Hcase as (Hout & ->). eexists. split; [done|].
  destruct (respond input response).1 as [p|e] eqn:Hr.
  - rewrite (respond_commit _ _ _ Hr).
    destruct (append_history input); [right; by exists p | by left].
  - left. by eapply respond_raise.
Qed.



(** *** The function registry *)

Lemma register_loop_run fds s :
  for_each fds add_function s =
    (Return (),
     mkState (self s)
       (append_to (functions (self s))
          (alloc_all (FunctionDefinition_dict <$> fds) (dicts s)).1 (heap s))
       (alloc_all (FunctionDefinition_dict <$> fds) (dicts s)).2
       (trace s)).
Proof.
  revert s. induction fds as [|fd fds IH]; intros s.
  - cbn. rewrite append_to_nil. by destruct s.
  - cbn [for_each]. run. rewrite IH. cbn. by rewrite append_to_app.
Qed.

(** Every declared field of a definition is a key of its serialisation. *)
Lemma FunctionDefinition_dict_all_fields fd k :
  k ∈ (fd_fields fd).*1 → is_Some (FunctionDefinition_dict fd !! k).
Proof.
  intros Hk. unfold FunctionDefinition_dict.
  destruct (list_to_map _ !! k) eqn:Hl; [eauto|].
  apply not_elem_of_list_to_map in Hl. exfalso. apply Hl.
  rewrite <- list_fmap_compose.
  by erewrite list_fmap_ext; [exact Hk | intros ? [??]].
Qed.

(** A field that holds nothing is serialised with Python's [None]. *)
Lemma FunctionDefinition_dict_absent_field fd k :
  NoDup (fd_fields fd).*1 →
  (k, None) ∈ fd_fields fd →
  FunctionDefinition_dict fd !! k = Some VNone.
Proof.
  intros Hnd Hk. unfold FunctionDefinition_dict.
  apply elem_of_list_to_map_1.
  - rewrite <- list_fmap_compose.
    by erewrite list_fmap_ext; [exact Hnd | intros ? [??]].
  - apply list_elem_of_fmap. by exists (k, None).
Qed.

(** The functions and function_call keys of a request, by the registry. *)
Lemma request_functions input trimmed fds :
  match fds with
  | [] =>
      kw_functions (request_of input trimmed (FunctionDefinition_dict <$> fds))
        = None ∧
      kw_function_call (request_of input trimmed (FunctionDefinition_dict <$> fds))
        = None
  | _ :: _ =>
      kw_functions (request_of input trimmed (FunctionDefinition_dict <$> fds))
        = Some (FunctionDefinition_dict <$> fds) ∧
      kw_function_call (request_of input trimmed (FunctionDefinition_dict <$> fds))
        = Some "auto"
  end.
Proof.
  unfold request_of. cbn [kw_functions kw_function_call].
  destruct fds as [|fd fds]; [done|].
  split; (case_decide as Hlen; [done | cbn in Hlen; lia]).
Qed.

(** C5.  Registering the definitions [fds] on a node whose registry is empty
    leaves the registry holding their serialisations, one per definition and
    in order; every declared field of a definition is a key of its
    serialisation, and a field that holds nothing is kept with [None].  A
    completion call after that, whenever [tt.trim] returns, calls the vendor
    with a request that carries what the trim returned, and exactly this
    list with function_call "auto" when there is at least one definition,
    neither key when there is none; no other request is sent. *)
Theorem registered_functions_are_attached fds msgs input s :
  node_wf s →
  registry s = [] →
  let s1 := (for_each fds add_function s).2 in
  let r := make_completion msgs input s1 in
  (for_each fds add_function s).1 = Return () ∧
  registry s1 = FunctionDefinition_dict <$> fds ∧
  length (registry s1) = length fds ∧
  (∀ fd k, fd ∈ fds → k ∈ (fd_fields fd).*1 →
     is_Some (FunctionDefinition_dict fd !! k)) ∧
  (∀ fd k, fd ∈ fds → NoDup (fd_fields fd).*1 → (k, None) ∈ fd_fields fd →
     FunctionDefinition_dict fd !! k = Some VNone) ∧
  (∀ trimmed,
     (tt_trim (window_of (buffer s1) msgs) (model input)).2 = inr trimmed →
     ∃ kw,
       called_with s1 r.2 (window_of (buffer s1) msgs) kw ∧
       kw_messages kw = Some trimmed ∧
       match fds with
       | [] => kw_functions kw = None ∧ kw_function_call kw = None
       | _ :: _ =>
           kw_functions kw = Some (FunctionDefinition_dict <$> fds) ∧
           kw_function_call kw = Some "auto"
       end) ∧
  (∀ w kw, called_with s1 r.2 w kw →
     match fds with
     | [] => kw_functions kw = None ∧ kw_function_call kw = None
     | _ :: _ =>
         kw_functions kw = Some (FunctionDefinition_dict <$> fds) ∧
         kw_function_call kw = Some "auto"
     end).
Proof.
  intros Hwf Hreg. cbv zeta. rewrite register_loop_run. cbn [fst snd].
  destruct (registry_push s (FunctionDefinition_dict <$> fds) (trace s) Hwf)
    as (Hwf1 & Hreg1 & _).
  cbv zeta in Hwf1, Hreg1.
  rewrite Hreg in Hreg1. cbn [app] in Hreg1.
  split_and!; [done | done | by rewrite Hreg1, length_fmap | | | |].
  - intros fd k _. apply FunctionDefinition_dict_all_fields.
  - intros fd k _. apply FunctionDefinition_dict_absent_field.
  - intros trimmed Ht.
    match goal with
    | |- context [make_completion msgs input ?st] => set (s1 := st) in *
    end.
    destruct (make_completion_summary msgs input s1 Hwf1)
      as (_ & _ & _ & _ & _ & Hcase).
    cbv zeta in Hcase. rewrite Ht in Hcase. destruct Hcase as (Htr & _).
    exists (request_of input trimmed (registry s1)).
    split; [by exists (model input)|]. split; [done|].
    rewrite Hreg1. apply request_functions.
  - intros w kw Hcall.
    destruct (called_with_inv _ _ _ _ _ Hwf1 Hcall) as (_ & trimmed & _ & ->).
    rewrite Hreg1. apply request_functions.
Qed.

(** *** What the records that are appended carry *)

Lemma Delta_dict_fields d :
  Delta_dict d !! "role" = VStr <$> delta_role d ∧
  Delta_dict d !! "content" = VStr <$> delta_content d ∧
  Delta_dict d !! "name" = VStr <$> delta_name d ∧
  Delta_dict d !! "function_call" = VObj <$> delta_function_call d.
Proof.
  unfold Delta_dict, set_if_present.
  destruct d as [[r|] [c|] [n|] [fc|]]; cbn; by simplify_map_eq.
Qed.

Lemma blank_Delta_dict d :
  blank (Delta_dict d) ↔ delta_role d = None ∧ delta_content d = None.
Proof.
  unfold blank. destruct (Delta_dict_fields d) as (-> & -> & _).
  by destruct (delta_role d), (delta_content d); split; intros [??].
Qed.

Lemma history_commits_have_role input n msgs d :
  d ∈ history_commits input n msgs → has_role d.
Proof.
  unfold history_commits, commits. intros Hd.
  destruct (append_history input); [|by apply elem_of_nil in Hd].
  destruct msgs as [|m msgs]; [by apply elem_of_nil in Hd|].
  apply elem_of_app in Hd as [Hd|Hd].
  - unfold pending in Hd.
    destruct (cur_role n), (cur_content n); try by apply elem_of_nil in Hd.
    apply list_elem_of_singleton in Hd as ->. apply Message_dict_has_role.
  - apply list_elem_of_fmap in Hd as (m' & -> & _). apply Message_dict_has_role.
Qed.

Lemma pending_has_role n d : d ∈ pending n → has_role d.
Proof.
  unfold pending. intros Hd.
  destruct (cur_role n), (cur_content n); try by apply elem_of_nil in Hd.
  apply list_elem_of_singleton in Hd as ->. apply Message_dict_has_role.
Qed.

(** A streaming response is returned only by a streaming call that was
    answered; with [append_history] its delta is then the last record of
    the buffer. *)
Lemma streaming_result_inv msgs input s q :
  node_wf s →
  (make_completion msgs input s).1 = Return (Streaming q) →
  use_streaming input = true ∧
  (append_history input = true →
   buffer (make_completion msgs input s).2
     = history_after_trim tt_trim msgs input s
         ++ history_commits input (self s) msgs ++ [Delta_dict (delta q)]).
Proof.
  intros Hwf Hq.
  destruct (make_completion_summary msgs input s Hwf)
    as (_ & _ & _ & _ & _ & Hcase).
  cbv zeta in Hcase.
  destruct (tt_trim (window_of (buffer s) msgs) (model input)).2 as [e|trimmed].
  { destruct Hcase as (Hout & _). rewrite Hout in Hq. discriminate Hq. }
  destruct Hcase as (_ & Hcase).
  destruct (ChatCompletion_create (request_of input trimmed (registry s)))
    as [e|response].
  { destruct Hcase as (Hout & _). rewrite Hout in Hq. discriminate Hq. }
  destruct Hcase as (Hout & Hbuf). rewrite Hout in Hq.
  split; [by eapply respond_streaming|].
  intros Hah. by rewrite Hbuf, (respond_commit _ _ _ Hq), Hah.
Qed.

(** The records a gateway call appends. *)
Lemma make_completion_appends msgs input s :
  node_wf s →
  ∃ ext,
    buffer (make_completion msgs input s).2
      = history_after_trim tt_trim msgs input s ++ ext ∧
    (∀ d, d ∈ ext →
       has_role d ∨
       ∃ q, use_streaming input = true ∧ append_history input = true ∧
            (make_completion msgs input s).1 = Return (Streaming q) ∧
            d = Delta_dict (delta q) ∧ last ext = Some d) ∧
    (∀ q, append_history input = true →
          (make_completion msgs input s).1 = Return (Streaming q) →
          last ext = Some (Delta_dict (delta q))).
Proof.
  intros Hwf.
  destruct (buffer_after_call msgs input s Hwf) as (tail & Hbuf & Htail).
  exists (history_commits input (self s) msgs ++ tail).
  split; [exact Hbuf|].
  assert (Hlast : ∀ q, append_history input = true →
            (make_completion msgs input s).1 = Return (Streaming q) →
            tail = [Delta_dict (delta q)]).
  { intros q Hah Hq.
    destruct (streaming_result_inv msgs input s q Hwf Hq) as [_ Hb].
    specialize (Hb Hah). rewrite Hbuf in Hb.
    by do 2 apply app_inv_head in Hb. }
  split.
  - intros d Hd. apply elem_of_app in Hd as [Hd|Hd].
    { left. by eapply history_commits_have_role. }
    destruct Htail as [->|(p & Hout & Hah & ->)]; [by apply elem_of_nil in Hd|].
    apply list_elem_of_singleton in Hd as ->.
    destruct p as [p|q]; [left; apply Message_dict_has_role|].
    right. exists q.
    destruct (streaming_result_inv msgs input s q Hwf Hout) as [Hus _].
    split_and!; try done. by rewrite last_snoc.
  - intros q Hah Hq. rewrite (Hlast q Hah Hq). by rewrite last_snoc.
Qed.

Lemma fmap_run {A B} (f : A → B) (c : M A) s :
  (f <$> c) s =
    (match (c s).1 with Return a => Return (f a) | Raise e => Raise e end, (c s).2).
Proof.
  unfold fmap, M_fmap, bind, ret. by destruct (c s) as [[a|e] s'].
Qed.

Lemma then_none_run (c : M unit) s :
  (c;; mret None) s =
    (match (c s).1 with Return _ => Return (@None Resp) | Raise e => Raise e end,
     (c s).2).
Proof.
  unfold mbind, M_bind, bind, mret, M_ret, ret. by destruct (c s) as [[a|e] s'].
Qed.

(** What an operation appends: the buffer afterwards is the records it held
    followed by the records appended; each of these carries a role, or is
    the delta of the streaming response that is returned. *)
Lemma run_op_appends op s :
  node_wf s →
  let r := run_op tt_trim ChatCompletion_create op s in
  ∃ kept ext,
    buffer r.2 = kept ++ ext ∧
    length kept = length (buffer s) ∧
    (op_input op = None → kept = buffer s) ∧
    (∀ d, d ∈ ext →
       has_role d ∨
       ∃ input q, op_input op = Some input ∧
                  use_streaming input = true ∧ append_history input = true ∧
                  r.1 = Return (Some (Streaming q)) ∧
                  d = Delta_dict (delta q) ∧ last ext = Some d) ∧
    (∀ input q, op_input op = Some input → append_history input = true →
                r.1 = Return (Some (Streaming q)) →
                last ext = Some (Delta_dict (delta q))) ∧
    (∀ dl, Delta_dict dl !! "role" = VStr <$> delta_role dl ∧
           Delta_dict dl !! "content" = VStr <$> delta_content dl ∧
           Delta_dict dl !! "name" = VStr <$> delta_name dl ∧
           Delta_dict dl !! "function_call" = VObj <$> delta_function_call dl ∧
           (blank (Delta_dict dl) ↔
            delta_role dl = None ∧ delta_content dl = None)).
Proof.
  intros Hwf. cbv zeta.
  assert (Hdelta : ∀ dl,
    Delta_dict dl !! "role" = VStr <$> delta_role dl ∧
    Delta_dict dl !! "content" = VStr <$> delta_content dl ∧
    Delta_dict dl !! "name" = VStr <$> delta_name dl ∧
    Delta_dict dl !! "function_call" = VObj <$> delta_function_call dl ∧
    (blank (Delta_dict dl) ↔ delta_role dl = None ∧ delta_content dl = None)).
  { intros dl. destruct (Delta_dict_fields dl) as (? & ? & ? & ?).
    split_and!; try done. apply blank_Delta_dict. }
  assert (Hgate : ∀ msgs input,
    ∃ kept ext,
      buffer ((Some <$> make_completion msgs input) s).2 = kept ++ ext ∧
      length kept = length (buffer s) ∧
      (Some input = None → kept = buffer s) ∧
      (∀ d, d ∈ ext →
         has_role d ∨
         ∃ input0 q, Some input = Some input0 ∧
                    use_streaming input0 = true ∧ append_history input0 = true ∧
                    ((Some <$> make_completion msgs input) s).1
                      = Return (Some (Streaming q)) ∧
                    d = Delta_dict (delta q) ∧ last ext = Some d) ∧
      (∀ input0 q, Some input = Some input0 → append_history input0 = true →
                  ((Some <$> make_completion msgs input) s).1
                    = Return (Some (Streaming q)) →
                  last ext = Some (Delta_dict (delta q))) ∧
      (∀ dl, Delta_dict dl !! "role" = VStr <$> delta_role dl ∧
             Delta_dict dl !! "content" = VStr <$> delta_content dl ∧
             Delta_dict dl !! "name" = VStr <$> delta_name dl ∧
             Delta_dict dl !! "function_call" = VObj <$> delta_function_call dl ∧
             (blank (Delta_dict dl) ↔
              delta_role dl = None ∧ delta_content dl = None))).
  { intros msgs input. rewrite fmap_run. cbn [fst snd].
    destruct (make_completion_appends msgs input s Hwf)
      as (ext & Hbuf & Hext & Hlast).
    exists (history_after_trim tt_trim msgs input s), ext.
    split_and!; [done | apply length_history_after_trim | done | | | done].
    - intros d Hd. destruct (Hext d Hd) as [?|(q & Hus & Hah & Hout & -> & Hl)];
        [by left|].
      right. exists input, q. rewrite Hout. by split_and!.
    - intros input0 q [= <-] Hah Hout. apply Hlast; [done|].
      by destruct ((make_completion msgs input s).1) as [[?|?]|?];
        simplify_eq. }
  assert (Hplain : ∀ after ext,
    after = buffer s ++ ext →
    (∀ d, d ∈ ext → has_role d) →
    ∃ kept ext0,
      after = kept ++ ext0 ∧
      length kept = length (buffer s) ∧
      (@None ChatConfig = None → kept = buffer s) ∧
      (∀ d, d ∈ ext0 →
         has_role d ∨
         ∃ input q, @None ChatConfig = Some input ∧
                    use_streaming input = true ∧ append_history input = true ∧
                    Return (@None Resp) = Return (Some (Streaming q)) ∧
                    d = Delta_dict (delta q) ∧ last ext0 = Some d) ∧
      (∀ input q, @None ChatConfig = Some input → append_history input = true →
                  Return (@None Resp) = Return (Some (Streaming q)) →
                  last ext0 = Some (Delta_dict (delta q))) ∧
      (∀ dl, Delta_dict dl !! "role" = VStr <$> delta_role dl ∧
             Delta_dict dl !! "content" = VStr <$> delta_content dl ∧
             Delta_dict dl !! "name" = VStr <$> delta_name dl ∧
             Delta_dict dl !! "function_call" = VObj <$> delta_function_call dl ∧
             (blank (Delta_dict dl) ↔
              delta_role dl = None ∧ delta_content dl = None))).
  { intros after ext -> Hext. exists (buffer s), ext.
    split_and!; try done. intros d Hd. left. by apply Hext. }
  destruct op as [fd|msg|c|r|c|input|text input|msg input|msgs input];
    cbn [run_op op_input]; try apply Hgate; rewrite then_none_run.
  - rewrite add_function_run. cbn [fst snd].
    destruct (registry_push s [FunctionDefinition_dict fd] (trace s) Hwf)
      as (_ & _ & Hbuf).
    cbv zeta in Hbuf.
    apply (Hplain _ []); [by rewrite app_nil_r|].
    intros d Hd. by apply elem_of_nil in Hd.
  - destruct (add_single_message_buffer msg s Hwf) as [_ Hbuf].
    rewrite add_single_message_run. cbn [fst].
    rewrite add_single_message_run in Hbuf.
    apply (Hplain _ _ Hbuf). intros d Hd. apply elem_of_app in Hd as [Hd|Hd].
    + by eapply pending_has_role.
    + apply list_elem_of_singleton in Hd as ->. apply Message_dict_has_role.
  - unfold add_system_message.
    destruct (add_single_message_buffer (Message_of "system" c) s Hwf)
      as [_ Hbuf].
    rewrite add_single_message_run. cbn [fst].
    rewrite add_single_message_run in Hbuf.
    apply (Hplain _ _ Hbuf). intros d Hd. apply elem_of_app in Hd as [Hd|Hd].
    + by eapply pending_has_role.
    + apply list_elem_of_singleton in Hd as ->. apply Message_dict_has_role.
  - destruct (add_role_buffer r s Hwf) as [_ Hbuf].
    rewrite add_role_run. cbn [fst]. rewrite add_role_run in Hbuf.
    apply (Hplain _ _ Hbuf). intros d Hd.
    apply elem_of_app in Hd as [Hd|Hd]; by eapply pending_has_role.
  - destruct (add_content_buffer c s Hwf) as [_ Hbuf].
    rewrite add_content_run. cbn [fst]. rewrite add_content_run in Hbuf.
    apply (Hplain _ []); [by rewrite app_nil_r|].
    intros d Hd. by apply elem_of_nil in Hd.
Qed.

(** C7, amended.  Whatever the operation, the buffer afterwards is the
    records it held (as they were, for the operations that are not gateway
    calls) followed by the records appended.  Every record appended by a
    direct append, by an accumulator flush, or by the gateway's commits of
    new messages and of a non-streaming response carries a role.  The
    streaming commit appends, as the last record, the delta of the response
    that is returned, serialised with exactly the fields the delta has: that
    record carries a role, a content, a name, a function_call exactly when
    the delta has one, so a delta with neither role nor content gives a
    record with neither.  Hence every appended record carries a role
    whenever the response returned is not a streaming one whose delta has no
    role. *)
Theorem appended_records_carry_role_unless_delta op s :
  node_wf s →
  let r := run_op tt_trim ChatCompletion_create op s in
  ∃ kept ext,
    buffer r.2 = kept ++ ext ∧
    length kept = length (buffer s) ∧
    (op_input op = None → kept = buffer s) ∧
    (∀ d, d ∈ ext →
       has_role d ∨
       ∃ input q, op_input op = Some input ∧
                  use_streaming input = true ∧ append_history input = true ∧
                  r.1 = Return (Some (Streaming q)) ∧
                  d = Delta_dict (delta q) ∧ last ext = Some d) ∧
    (∀ input q, op_input op = Some input → append_history input = true →
                r.1 = Return (Some (Streaming q)) →
                last ext = Some (Delta_dict (delta q))) ∧
    (∀ dl, Delta_dict dl !! "role" = VStr <$> delta_role dl ∧
           Delta_dict dl !! "content" = VStr <$> delta_content dl ∧
           Delta_dict dl !! "name" = VStr <$> delta_name dl ∧
           Delta_dict dl !! "function_call" = VObj <$> delta_function_call dl ∧
           (blank (Delta_dict dl) ↔
            delta_role dl = None ∧ delta_content dl = None)) ∧
    ((∀ q, r.1 = Return (Some (Streaming q)) → is_Some (delta_role (delta q))) →
     ∀ d, d ∈ ext → has_role d ∧ ¬ blank d).
Proof.
  intros Hwf. cbv zeta.
  destruct (run_op_appends op s Hwf)
    as (kept & ext & Hbuf & Hlen & Hkept & Hext & Hlast & Hdelta).
  exists kept, ext. split_and!; try done.
  intros Hrole d Hd.
  assert (has_role d) as Hr.
  { destruct (Hext d Hd) as [?|(input & q & _ & _ & _ & Hout & -> & _)]; [done|].
    unfold has_role. destruct (Hdelta (delta q)) as (-> & _).
    destruct (Hrole q Hout) as [x ->]. by eexists. }
  split; [done|]. intros [Hno _]. destruct Hr as [x Hx]. congruence.
Qed.

(** Well-formedness is an invariant: it holds after [__init__]
    ([node_wf_init]) and every operation keeps it. *)
Lemma node_wf_run_op op s :
  node_wf s → node_wf (run_op tt_trim ChatCompletion_create op s).2.
Proof.
  intros Hwf.
  assert (Hgate : ∀ msgs input,
            node_wf ((Some <$> make_completion msgs input) s).2).
  { intros msgs input. rewrite fmap_run. cbn [snd].
    by destruct (make_completion_summary msgs input s Hwf) as (? & _). }
  destruct op as [fd|msg|c|r|c|input|text input|msg input|msgs input];
    cbn [run_op]; try apply Hgate; rewrite then_none_run; cbn [snd].
  - rewrite add_function_run. cbn [snd].
    by destruct (registry_push s [FunctionDefinition_dict fd] (trace s) Hwf).
  - by destruct (add_single_message_buffer msg s Hwf).
  - by destruct (add_single_message_buffer (Message_of "system" c) s Hwf).
  - by destruct (add_role_buffer r s Hwf).
  - by destruct (add_content_buffer c s Hwf).
Qed.

End GatewayFacts.

(** ** Runs on concrete inputs *)

(** The events of a concrete run, by evaluation. *)
Ltac concrete_call := eexists; vm_compute; reflexivity.

(** A first chat on a fresh node: the request carries the seed and the user
    message, the buffer ends with the user message and the answer. *)
Example first_chat_request :
  trace (chat trim_keeps_all (vendor_says (Message_of "assistant" "hello"))
           "hi" keep_history fresh_node).2
  = [EvTrim [Message_dict default_system_message;
             Message_dict (Message_of "user" "hi")] "gpt-4";
     EvCreate (mkKwargs "gpt-4"
                 (Some [Message_dict default_system_message;
                        Message_dict (Message_of "user" "hi")])
                 None None None)].
Proof. vm_compute. reflexivity. Qed.

Example first_chat_buffer :
  buffer (chat trim_keeps_all (vendor_says (Message_of "assistant" "hello"))
            "hi" keep_history fresh_node).2
  = [Message_dict (Message_of "user" "hi");
     Message_dict (Message_of "assistant" "hello")].
Proof. vm_compute. reflexivity. Qed.

(** A call on a node that has a history sends the history, without the seed,
    and a trim that empties the list it was handed, and rewrites no dict,
    leaves the history whole. *)
Example later_call_window :
  trace (complete trim_keeps_last vendor_down no_history node_with_history).2
  = [EvTrim [Message_dict (Message_of "system" "be brief");
             Message_dict (Message_of "user" "hi")] "gpt-4";
     EvCreate (mkKwargs "gpt-4" (Some [Message_dict (Message_of "user" "hi")])
                 None None None)].
Proof. vm_compute. reflexivity. Qed.

Example later_call_buffer :
  buffer (complete trim_keeps_last vendor_down no_history node_with_history).2
  = [Message_dict (Message_of "system" "be brief");
     Message_dict (Message_of "user" "hi")].
Proof. vm_compute. reflexivity. Qed.

(** A trim that shortens the dicts of its argument where they stand reaches
    the stored history: the window holds the history's own dicts. *)
Example later_call_with_cutting_trim :
  buffer (complete trim_cuts_in_place vendor_down no_history node_with_history).2
  = [cut (Message_dict (Message_of "system" "be brief"));
     cut (Message_dict (Message_of "user" "hi"))].
Proof. vm_compute. reflexivity. Qed.

(** An answer without choices, or one that does not validate, raises out of
    the gateway: only the call itself is guarded. *)
Example empty_choices_raise :
  (chat trim_keeps_all (λ _, inr (mkResponse [])) "hi" keep_history fresh_node).1
  = Raise (Exc "IndexError" "list index out of range").
Proof. vm_compute. reflexivity. Qed.

(** Content that arrives before any role is kept by [add_role] and flushed,
    with that role, by the next one. *)
Example content_before_role :
  buffer ((add_content "x";; add_role "user";; add_role "assistant") fresh_node).2
  = [Message_dict (Message_of "user" "x"); Message_dict (Message_of "user" "x")].
Proof. vm_compute. reflexivity. Qed.

(** A direct append flushes a complete accumulator once, ahead of the
    message. *)
Example direct_append_flushes_once :
  buffer (add_single_message (Message_of "assistant" "ok") node_with_pending).2
  = [Message_dict (Message_of "user" "x"); Message_dict (Message_of "assistant" "ok")].
Proof. vm_compute. reflexivity. Qed.

Lemma external_failure_is_reported_witness :
  node_wf fresh_node ∧
  ∃ p, (_make_completion trim_keeps_all vendor_down one_message keep_history
          fresh_node).1 = Return (Plain p) ∧
       msg_role (message p) = "system" ∧
       msg_content (message p) = Some "Error occurred: connection refused" ∧
       finish_reason p = "error".
Proof.
  assert (node_wf fresh_node) as Hwf by concrete_wf.
  split; [exact Hwf|].
  apply (external_failure_is_reported trim_keeps_all vendor_down one_message
           keep_history fresh_node
           (window_of (buffer fresh_node) one_message)
           (request_of keep_history (window_of (buffer fresh_node) one_message)
              (registry fresh_node))
           (Exc "APIConnectionError" "connection refused") Hwf).
  - concrete_call.
  - reflexivity.
Defined.


Lemma streaming_failure_has_plain_shape_witness :
  node_wf fresh_node ∧
  (_make_completion trim_keeps_all vendor_down one_message keep_history_streaming
     fresh_node).1
    = Return (Plain (error_response (Exc "APIConnectionError" "connection refused"))).
Proof.
  assert (node_wf fresh_node) as Hwf by concrete_wf.
  split; [exact Hwf|].
  assert (called_with fresh_node
            (_make_completion trim_keeps_all vendor_down one_message
               keep_history_streaming fresh_node).2
            (window_of (buffer fresh_node) one_message)
            (request_of keep_history_streaming
               (window_of (buffer fresh_node) one_message)
               (registry fresh_node))) as Hcall by concrete_call.
  pose proof (streaming_failure_has_plain_shape trim_keeps_all vendor_down
                one_message keep_history_streaming fresh_node Hwf) as [Hfail _].
  exact (proj1 (Hfail _ _ (Exc "APIConnectionError" "connection refused")
                  eq_refl Hcall eq_refl)).
Defined.

(** C2, as stated, fails: with a complete accumulator the first commit
    flushes it, and the buffer grows by one entry more than the new messages
    and the response. *)
Lemma history_growth_with_pending_accumulator :
  ¬ (∀ (tt_trim : list pydict → string → TrimEffect * (Exception + list pydict))
       (create : Kwargs → Exception + Response) msgs input s,
       node_wf s → msgs ≠ [] → append_history input = true →
       length (buffer (_make_completion tt_trim create msgs input s).2)
         = length (buffer s) + length msgs + 1).
Proof.
  intros H.
  specialize (H trim_keeps_all (vendor_says (Message_of "assistant" "hello"))
                one_message keep_history node_with_pending).
  assert (node_wf node_with_pending) as Hwf by concrete_wf.
  specialize (H Hwf ltac:(discriminate) eq_refl).
  vm_compute in H. discriminate H.
Qed.

Lemma history_grows_by_messages_and_response_witness :
  node_wf node_with_history ∧
  one_message ≠ [] ∧
  append_history keep_history = true ∧
  complete_pending (self node_with_history) = false ∧
  buffer (_make_completion trim_keeps_all
            (vendor_says (Message_of "assistant" "hello")) one_message
            keep_history node_with_history).2
    = buffer node_with_history ++ (Message_dict <$> one_message)
        ++ [Message_dict (Message_of "assistant" "hello")] ∧
  length (buffer (_make_completion trim_keeps_all
                    (vendor_says (Message_of "assistant" "hello")) one_message
                    keep_history node_with_history).2)
    = length (buffer node_with_history) + length one_message + 1.
Proof.
  assert (node_wf node_with_history) as Hwf by concrete_wf.
  split; [exact Hwf|]. split; [discriminate|]. split; [reflexivity|].
  split; [reflexivity|].
  assert (called_with node_with_history
            (_make_completion trim_keeps_all
               (vendor_says (Message_of "assistant" "hello")) one_message
               keep_history node_with_history).2
            (window_of (buffer node_with_history) one_message)
            (request_of keep_history
               (window_of (buffer node_with_history) one_message)
               (registry node_with_history))) as Hcall by concrete_call.
  assert ((_make_completion trim_keeps_all
             (vendor_says (Message_of "assistant" "hello")) one_message
             keep_history node_with_history).1
          = Return (Plain (mkOpenAIResp (Message_of "assistant" "hello") "stop")))
    as Hout by (vm_compute; reflexivity).
  pose proof (history_grows_by_messages_and_response trim_keeps_all
                (vendor_says (Message_of "assistant" "hello")) one_message
                keep_history node_with_history _ _ _ _
                Hwf ltac:(discriminate) eq_refl eq_refl Hcall eq_refl Hout)
    as (_ & _ & Hlen & Hbuf).
  split; [exact (Hbuf eq_refl) | exact Hlen].
Defined.


(** One definition registered on a fresh node, then a chat: the gateway
    hands the seed and the user message to the trim and calls the vendor with
    a request that carries the one serialised definition and "auto". *)
Lemma registered_functions_are_attached_witness :
  node_wf fresh_node ∧
  registry fresh_node = [] ∧
  registry (for_each [get_weather] add_function fresh_node).2
    = [FunctionDefinition_dict get_weather] ∧
  FunctionDefinition_dict get_weather !! "description" = Some VNone ∧
  ∃ kw,
    called_with (for_each [get_weather] add_function fresh_node).2
      (_make_completion trim_keeps_all vendor_down one_message keep_history
         (for_each [get_weather] add_function fresh_node).2).2
      [Message_dict default_system_message; Message_dict (Message_of "user" "hi")]
      kw ∧
    kw_messages kw
      = Some [Message_dict default_system_message;
              Message_dict (Message_of "user" "hi")] ∧
    kw_functions kw = Some [FunctionDefinition_dict get_weather] ∧
    kw_function_call kw = Some "auto".
Proof.
  assert (node_wf fresh_node) as Hwf by concrete_wf.
  assert (registry fresh_node = []) as Hempty by (vm_compute; reflexivity).
  split; [exact Hwf|]. split; [exact Hempty|].
  pose proof (registered_functions_are_attached trim_keeps_all vendor_down
                [get_weather] one_message keep_history fresh_node Hwf Hempty)
    as (_ & Hreg & _ & _ & Habsent & Hsent & _).
  split; [exact Hreg|]. split.
  - apply (Habsent get_weather "description").
    + apply list_elem_of_here.
    + vm_compute. repeat constructor; intros Hin; inversion Hin; subst;
        match goal with H : _ ∈ _ |- _ => inversion H end.
    + apply list_elem_of_further, list_elem_of_here.
  - assert (buffer (for_each [get_weather] add_function fresh_node).2 = [])
      as Hbuf by (vm_compute; reflexivity).
    cbv zeta in Hsent. rewrite Hbuf in Hsent.
    destruct (Hsent _ eq_refl) as (kw & Hcall & Hmsgs & Hfun & Hfc).
    exists kw. split_and!; [exact Hcall | exact Hmsgs | exact Hfun | exact Hfc].
Defined.

(** C7, as stated, fails: the streaming commit appends the record of a delta
    that has no field at all, which has neither role nor content. *)
Lemma streaming_commit_appends_blank_record :
  ¬ (∀ (tt_trim : list pydict → string → TrimEffect * (Exception + list pydict))
       (create : Kwargs → Exception + Response) op s,
       node_wf s →
       ∀ d, d ∈ drop (length (buffer s)) (buffer (run_op tt_trim create op s).2) →
            ¬ blank d).
Proof.
  intros H.
  assert (node_wf fresh_node) as Hwf by concrete_wf.
  specialize (H trim_keeps_all vendor_ends_stream
                (OpChat "hi" keep_history_streaming) fresh_node Hwf
                (Delta_dict empty_delta)).
  apply H.
  - assert (buffer (run_op trim_keeps_all vendor_ends_stream
                      (OpChat "hi" keep_history_streaming) fresh_node).2
            = [Message_dict (Message_of "user" "hi"); Delta_dict empty_delta])
      as -> by (vm_compute; reflexivity).
    assert (buffer fresh_node = []) as -> by (vm_compute; reflexivity).
    cbn [length drop]. apply list_elem_of_further, list_elem_of_here.
  - split; reflexivity.
Qed.

(** A streaming chat whose delta has a role: the two records appended, the
    user message and the delta, carry a role, and the delta comes last. *)
Lemma appended_records_carry_role_unless_delta_witness :
  node_wf node_with_history ∧
  ∃ kept ext,
    buffer (run_op trim_keeps_all
              (vendor_streams (mkDelta (Some "assistant") None None None))
              (OpChat "hi" keep_history_streaming) node_with_history).2
      = kept ++ ext ∧
    length kept = length (buffer node_with_history) ∧
    last ext = Some (Delta_dict (mkDelta (Some "assistant") None None None)) ∧
    ∀ d, d ∈ ext → has_role d ∧ ¬ blank d.
Proof.
  assert (node_wf node_with_history) as Hwf by concrete_wf.
  split; [exact Hwf|].
  destruct (appended_records_carry_role_unless_delta trim_keeps_all
              (vendor_streams (mkDelta (Some "assistant") None None None))
              (OpChat "hi" keep_history_streaming) node_with_history Hwf)
    as (kept & ext & Hbuf & Hlen & _ & _ & Hlast & _ & Hrole).
  exists kept, ext. split_and!; [exact Hbuf | exact Hlen | |].
  - apply (Hlast keep_history_streaming
             (mkOpenAIStreamingResp (mkDelta (Some "assistant") None None None)));
      reflexivity.
  - apply Hrole. intros q Hq. vm_compute in Hq.
    injection Hq as <-. by eexists.
Defined.



(** * Further properties of the node *)

(** ** The accumulator *)

Lemma string_app_assoc (a b c : string) : (a +:+ b) +:+ c = a +:+ (b +:+ c).
Proof.
  induction a as [|x a IH]; [reflexivity|].
  change (String x ((a +:+ b) +:+ c) = String x (a +:+ (b +:+ c))).
  by rewrite IH.
Qed.

Lemma string_app_nil_r (a : string) : a +:+ "" = a.
Proof.
  induction a as [|x a IH]; [reflexivity|].
  change (String x (a +:+ "") = String x a). by rewrite IH.
Qed.

(** X1.  Two fragments appended one after the other leave the node exactly
    as the two fragments joined and appended at once, whatever the
    accumulator held. *)
Theorem add_content_compose a b s :
  (add_content a;; add_content b) s = add_content (a +:+ b) s.
Proof.
  destruct s as [[h f r [c0|]] hp ds tr]; run; [|reflexivity].
  by rewrite string_app_assoc.
Qed.

(** The loop of fragments: the content ends as what it was followed by the
    fragments; nothing else changes. *)
Lemma content_loop_run cs s :
  for_each cs add_content s =
    (Return (),
     mkState (mkNode (history (self s)) (functions (self s)) (cur_role (self s))
                (match cs with
                 | [] => cur_content (self s)
                 | _ :: _ => Some (default "" (cur_content (self s))
                                   +:+ fragments_text cs)
                 end))
             (heap s) (dicts s) (trace s)).
Proof.
  revert s. induction cs as [|c cs IH]; intros s.
  - by destruct s as [[h f r c0] hp ds tr].
  - cbn [for_each]. unfold mbind, M_bind, bind.
    rewrite add_content_run, IH. cbn [self heap dicts trace history functions
      cur_role cur_content default].
    do 3 f_equal. unfold id. destruct cs as [|c' cs].
    + cbn. by rewrite string_app_nil_r.
    + cbn [fragments_text foldr]. by rewrite string_app_assoc.
Qed.

(** X2.  The accumulator, used as it is meant to be and closed by a direct
    append: after [add_role ro], one or more fragments and then
    [add_single_message m], on a node that held no pending content, the
    buffer has gained the message {role: ro, content: the fragments joined}
    once, followed by [m], and the accumulator is empty again. *)
Theorem fragments_then_direct_append ro cs m s :
  node_wf s →
  cur_content (self s) = None →
  cs ≠ [] →
  let r := (add_role ro;; for_each cs add_content;; add_single_message m) s in
  r.1 = Return () ∧
  buffer r.2 = buffer s ++ [Message_dict (Message_of ro (fragments_text cs));
                            Message_dict m] ∧
  cur_role (self r.2) = None ∧
  cur_content (self r.2) = None.
Proof.
  intros Hwf Hnone Hcs. cbv zeta. unfold mbind, M_bind, bind.
  rewrite add_role_run, content_loop_run, add_single_message_run.
  cbn [fst snd self heap dicts trace history functions cur_role cur_content].
  assert (complete_pending (self s) = false) as Hinc.
  { unfold complete_pending. rewrite Hnone. by destruct (cur_role (self s)). }
  rewrite Hinc, Hnone, (pending_incomplete _ Hinc). cbn [app default alloc_all fst snd].
  rewrite append_to_nil.
  destruct cs as [|c cs]; [done|].
  split; [done|]. split; [|done].
  by destruct (history_push s None None
                 [Message_dict (Message_of ro (fragments_text (c :: cs)));
                  Message_dict m] (trace s) Hwf) as (_ & Hbuf & _).
Qed.

(** X3.  A direct append on an accumulator that is not complete (role or
    content absent) appends the message alone and leaves the accumulator,
    the registry and the trace as they were: a half-filled accumulator
    survives it. *)
Theorem direct_append_keeps_partial_accumulator m s :
  node_wf s →
  complete_pending (self s) = false →
  let r := add_single_message m s in
  r.1 = Return () ∧
  buffer r.2 = buffer s ++ [Message_dict m] ∧
  self r.2 = self s ∧
  registry r.2 = registry s ∧
  trace r.2 = trace s.
Proof.
  intros Hwf Hinc. cbv zeta. rewrite add_single_message_run, flushed_eta.
  cbn [fst snd]. rewrite Hinc, (pending_incomplete _ Hinc). cbn [app].
  destruct (history_push s (cur_role (self s)) (cur_content (self s))
              [Message_dict m] (trace s) Hwf) as (_ & Hbuf & Hreg).
  split_and!; [done | done | | done | done].
  cbn [self]. by destruct (self s).
Qed.

(** X4.  [add_system_message c] puts the system message at the END of the
    buffer, behind everything already there and behind the accumulator's
    message if one was pending. *)
Theorem system_message_goes_last c s :
  node_wf s →
  let r := add_system_message c s in
  r.1 = Return () ∧
  buffer r.2 = buffer s ++ pending (self s) ++ [Message_dict (Message_of "system" c)] ∧
  ∃ d, last (buffer r.2) = Some d ∧
       d !! "role" = Some (VStr "system") ∧ d !! "content" = Some (VStr c).
Proof.
  intros Hwf. cbv zeta. unfold add_system_message.
  destruct (add_single_message_buffer (Message_of "system" c) s Hwf) as [_ Hbuf].
  rewrite Hbuf, add_single_message_run. cbn [fst].
  split; [done|]. split; [done|].
  exists (Message_dict (Message_of "system" c)).
  rewrite !app_assoc, last_snoc.
  by rewrite Message_dict_role, Message_dict_content.
Qed.

(** ** The registry and the constructor *)

(** X5.  The registry is append-only whatever it holds: registering [fds]
    appends their serialisations in order behind the entries already there
    (a definition registered twice is there twice), and changes neither the
    buffer, nor the accumulator, nor the trace. *)
Theorem registry_is_append_only fds s :
  node_wf s →
  let r := for_each fds add_function s in
  r.1 = Return () ∧
  registry r.2 = registry s ++ (FunctionDefinition_dict <$> fds) ∧
  buffer r.2 = buffer s ∧
  self r.2 = self s ∧
  trace r.2 = trace s.
Proof.
  intros Hwf. cbv zeta. rewrite register_loop_run. cbn [fst snd].
  destruct (registry_push s (FunctionDefinition_dict <$> fds) (trace s) Hwf)
    as (_ & Hreg & Hbuf).
  by split_and!.
Qed.

(** X6.  [__init__] gives the node two new, different lists, both empty, and
    an empty accumulator; it takes no list that exists and changes none, so
    two nodes never share a buffer or a registry; it makes and changes no
    dict. *)
Theorem init_allocates_private_lists hp ds tr :
  let s := __init__ hp ds tr in
  node_wf s ∧
  buffer s = [] ∧ registry s = [] ∧
  cur_role (self s) = None ∧ cur_content (self s) = None ∧
  hp !! history (self s) = None ∧
  hp !! functions (self s) = None ∧
  (∀ l, is_Some (hp !! l) → heap s !! l = hp !! l) ∧
  dicts s = ds ∧
  trace s = tr.
Proof.
  cbv zeta. split; [apply node_wf_init|].
  split; [apply buffer_init|]. split; [apply registry_init|].
  unfold __init__.
  cbn [self heap dicts trace history functions cur_role cur_content].
  set (h := fresh (dom hp)). set (f := fresh (dom (<[h:=[]]> hp))).
  assert (hp !! h = None) as Hh by apply not_elem_of_dom, is_fresh.
  assert (<[h:=[]]> hp !! f = None) as Hf by apply not_elem_of_dom, is_fresh.
  assert (f ≠ h) as Hfh by (intros ->; by rewrite lookup_insert_eq in Hf).
  split_and!; try done.
  - by rewrite lookup_insert_ne in Hf.
  - intros l [x Hl].
    assert (h ≠ l) as Hhl by (intros ->; congruence).
    assert (f ≠ l) as Hfl.
    { intros ->. rewrite lookup_insert_ne in Hf by done. congruence. }
    by rewrite !lookup_insert_ne.
Qed.

(** ** The gateway, further *)

Section GatewayMore.

Variable tt_trim : list pydict → string → TrimEffect * (Exception + list pydict).
Variable ChatCompletion_create : Kwargs → Exception + Response.

#[local] Abbreviation make_completion :=
  (_make_completion tt_trim ChatCompletion_create).

(** X7.  Only [add_function] changes the registry: every other operation,
    the gateway calls included, leaves it as it was. *)
Theorem registry_changes_only_by_add_function op s :
  node_wf s →
  (∀ fd, op ≠ OpAddFunction fd) →
  registry (run_op tt_trim ChatCompletion_create op s).2 = registry s.
Proof.
  intros Hwf Hop.
  assert (Hgate : ∀ msgs input,
            registry ((Some <$> make_completion msgs input) s).2 = registry s).
  { intros msgs input. rewrite fmap_run. cbn [snd].
    by destruct (make_completion_summary tt_trim ChatCompletion_create
                   msgs input s Hwf) as (_ & _ & ? & _). }
  destruct op as [fd|msg|c|r|c|input|text input|msg input|msgs input];
    cbn [run_op]; try apply Hgate; [by destruct (Hop fd)|..];
    rewrite then_none_run; cbn [snd].
  - rewrite add_single_message_run, flushed_eta.
    by destruct (history_push s
                   (if complete_pending (self s) then None else cur_role (self s))
                   (if complete_pending (self s) then None else cur_content (self s))
                   (pending (self s) ++ [Message_dict msg]) (trace s) Hwf)
      as (_ & _ & ?).
  - unfold add_system_message.
    rewrite add_single_message_run, flushed_eta.
    by destruct (history_push s
                   (if complete_pending (self s) then None else cur_role (self s))
                   (if complete_pending (self s) then None else cur_content (self s))
                   (pending (self s) ++ [Message_dict (Message_of "system" c)])
                   (trace s) Hwf)
      as (_ & _ & ?).
  - rewrite add_role_run.
    by destruct (history_push s (Some r)
                   (if complete_pending (self s) then None else cur_content (self s))
                   (pending (self s) ++ pending (self s)) (trace s) Hwf)
      as (_ & _ & ?).
  - rewrite add_content_run. cbn [snd]. done.
Qed.

(** X8.  The request of a call: it names the model asked for, carries what
    [tt.trim] returned for the window, has the stream key (set to true) only
    when streaming was asked for, and has the functions and function_call
    keys exactly when the registry is not empty, the functions being the
    whole registry. *)
Theorem request_shape msgs input s w kw :
  node_wf s →
  called_with s (make_completion msgs input s).2 w kw →
  kw_model kw = model input ∧
  (∃ trimmed, (tt_trim w (model input)).2 = inr trimmed ∧
              kw_messages kw = Some trimmed) ∧
  kw_stream kw = (if use_streaming input then Some true else None) ∧
  (registry s = [] → kw_functions kw = None ∧ kw_function_call kw = None) ∧
  (registry s ≠ [] →
   kw_functions kw = Some (registry s) ∧ kw_function_call kw = Some "auto").
Proof.
  intros Hwf Hcall.
  destruct (called_with_inv tt_trim ChatCompletion_create _ _ _ _ _ Hwf Hcall)
    as (-> & trimmed & Ht & ->).
  unfold request_of.
  cbn [kw_model kw_messages kw_functions kw_function_call kw_stream].
  split_and!; [done | by exists trimmed | done | |].
  - intros Hnil. rewrite Hnil. cbn [length].
    split; (case_decide; [lia | done]).
  - intros Hne.
    assert (0 < length (registry s)) by (destruct (registry s); [done | cbn; lia]).
    split; (case_decide; [done | lia]).
Qed.

(** X9.  When [tt.trim] raises, the exception leaves the gateway and the
    vendor is not called; with [append_history] the new messages (and the
    accumulator's, if it was complete) are in the buffer all the same, as
    they were committed before the trim, behind the stored records (as the
    trim left them before it raised, one for one; as they were when it
    rewrote no dict). *)
Theorem trim_failure_propagates msgs input s e :
  node_wf s →
  (tt_trim (window_of (buffer s) msgs) (model input)).2 = inl e →
  let r := make_completion msgs input s in
  r.1 = Raise e ∧
  trace r.2 = trace s ++ [EvTrim (window_of (buffer s) msgs) (model input)] ∧
  buffer r.2 = history_after_trim tt_trim msgs input s
                 ++ (if append_history input then commits (self s) msgs else []) ∧
  length (history_after_trim tt_trim msgs input s) = length (buffer s) ∧
  (te_records (tt_trim (window_of (buffer s) msgs) (model input)).1 = [] →
   buffer r.2
     = buffer s ++ (if append_history input then commits (self s) msgs else [])).
Proof.
  intros Hwf Ht. cbv zeta.
  destruct (make_completion_summary tt_trim ChatCompletion_create
              msgs input s Hwf) as (_ & _ & _ & _ & _ & Hcase).
  cbv zeta in Hcase. rewrite Ht in Hcase.
  destruct Hcase as (Hout & Htr & Hbuf).
  split_and!; [done | done | done | apply length_history_after_trim |].
  intros Hnone. by rewrite Hbuf, (history_after_trim_untouched _ _ _ _ Hnone).
Qed.

(** X10.  An answer without any choice: [response.choices[0]] raises
    IndexError out of the gateway (only the call itself is guarded), nothing
    is committed for the response, and the commits made before the call
    stay, behind the stored records (as the trim left them, one for one; as
    they were when it rewrote no dict). *)
Theorem empty_choices_raise_index_error msgs input s w kw response :
  node_wf s →
  called_with s (make_completion msgs input s).2 w kw →
  ChatCompletion_create kw = inr response →
  choices response = [] →
  let r := make_completion msgs input s in
  r.1 = Raise (Exc "IndexError" "list index out of range") ∧
  buffer r.2 = history_after_trim tt_trim msgs input s
                 ++ (if append_history input then commits (self s) msgs else []) ∧
  length (history_after_trim tt_trim msgs input s) = length (buffer s) ∧
  (te_records (tt_trim (window_of (buffer s) msgs) (model input)).1 = [] →
   buffer r.2
     = buffer s ++ (if append_history input then commits (self s) msgs else [])).
Proof.
  intros Hwf Hcall Hans Hnone. cbv zeta.
  destruct (answered_call_run tt_trim ChatCompletion_create
              _ _ _ _ _ _ Hwf Hcall Hans) as [Hout Hbuf].
  rewrite Hout, Hbuf. unfold respond. rewrite Hnone. cbn [fst snd].
  rewrite app_nil_r.
  split_and!; [done | done | apply length_history_after_trim |].
  intros Hsame. by rewrite (history_after_trim_untouched _ _ _ _ Hsame).
Qed.

(** X11.  [complete] sends no new message, and so never flushes the
    accumulator: whatever the outcome, the accumulator and the registry are
    as before, and the buffer is the stored records, one for one as the trim
    left them (the window holds the history's own dicts), followed by at most
    the record of the response that is returned. *)
Theorem complete_keeps_accumulator input s :
  node_wf s →
  let r := complete tt_trim ChatCompletion_create input s in
  self r.2 = self s ∧
  registry r.2 = registry s ∧
  (∃ tail,
     buffer r.2 = history_after_trim tt_trim [] input s ++ tail ∧
     (tail = [] ∨
      ∃ p, r.1 = Return p ∧ append_history input = true ∧ tail = [resp_record p])) ∧
  length (history_after_trim tt_trim [] input s) = length (buffer s) ∧
  (te_records (tt_trim (window_of (buffer s) []) (model input)).1 = [] →
   history_after_trim tt_trim [] input s = buffer s).
Proof.
  intros Hwf. cbv zeta. unfold complete.
  destruct (make_completion_summary tt_trim ChatCompletion_create
              [] input s Hwf) as (_ & Hself & Hreg & _).
  destruct (buffer_after_call tt_trim ChatCompletion_create [] input s Hwf)
    as (tail & Hbuf & Htail).
  split_and!; [| done | |apply length_history_after_trim
               | apply history_after_trim_untouched].
  - rewrite Hself. unfold committed. by destruct (append_history input).
  - exists tail. split; [|done].
    rewrite Hbuf. unfold history_commits, commits.
    by destruct (append_history input).
Qed.

(** X12.  Without [append_history] a call changes no list that existed and
    not the accumulator: the lists of the store after the call are those
    before it and one more, the window, so the history holds the very
    references it held.  The dicts behind them are the window's too: the
    buffer afterwards is the stored records, one for one, as the trim left
    them, and is the old buffer when the trim rewrote no dict.  This holds
    whether the trim or the vendor fails or not. *)
Theorem call_without_history_appends_nothing msgs input s :
  node_wf s →
  append_history input = false →
  let r := make_completion msgs input s in
  self r.2 = self s ∧
  registry r.2 = registry s ∧
  heap s !! fresh (dom (heap s)) = None ∧
  (∃ window_refs, heap r.2 = <[fresh (dom (heap s)) := window_refs]> (heap s)) ∧
  buffer r.2 = history_after_trim tt_trim msgs input s ∧
  length (buffer r.2) = length (buffer s) ∧
  (te_records (tt_trim (window_of (buffer s) msgs) (model input)).1 = [] →
   buffer r.2 = buffer s).
Proof.
  intros Hwf Hah. cbv zeta.
  destruct (make_completion_summary tt_trim ChatCompletion_create
              msgs input s Hwf) as (_ & Hself & Hreg & _).
  destruct (buffer_after_call tt_trim ChatCompletion_create msgs input s Hwf)
    as (tail & Hbuf & Htail).
  assert (buffer (make_completion msgs input s).2
          = history_after_trim tt_trim msgs input s) as Hb.
  { rewrite Hbuf. unfold history_commits. rewrite Hah.
    destruct Htail as [->|(p & _ & Hah' & _)]; [by rewrite !app_nil_r | congruence]. }
  assert (∀ response, (respond input response).2 = []) as Hnil.
  { intros response. unfold respond. rewrite Hah.
    destruct (choices response) as [|ch chs]; [done|].
    destruct (use_streaming input).
    - by destruct (choice_delta ch).
    - by destruct (choice_message ch), (choice_finish_reason ch). }
  split_and!.
  - rewrite Hself. unfold committed. by rewrite Hah.
  - done.
  - apply not_elem_of_dom, is_fresh.
  - rewrite (make_completion_run tt_trim ChatCompletion_create _ _ _ Hwf).
    cbv zeta. unfold after_trim, history_commits. rewrite Hah.
    cbn [alloc_all fst snd]. rewrite append_to_nil.
    destruct (tt_trim _ _).2; [by eexists|].
    destruct (ChatCompletion_create _); [by eexists|].
    unfold push_history. rewrite Hnil. cbn [alloc_all fst snd heap with_event].
    rewrite append_to_nil. by eexists.
  - done.
  - by rewrite Hb, length_history_after_trim.
  - intros Hnone. by rewrite Hb, (history_after_trim_untouched _ _ _ _ Hnone).
Qed.

(** X13.  On a buffer that is not empty the window is the stored history
    followed by the new messages: no seed, and not the record that this
    call's own commit flushes from a complete accumulator (it is stored, but
    it was not yet in the buffer when the window was copied). *)
Theorem window_is_history_then_new_messages msgs input s :
  node_wf s →
  buffer s ≠ [] →
  let r := make_completion msgs input s in
  ∃ rest,
    trace r.2 = trace s ++ EvTrim (buffer s ++ (Message_dict <$> msgs)) (model input)
                        :: rest ∧
    ∀ kw, EvCreate kw ∈ rest →
      ∃ trimmed,
        (tt_trim (buffer s ++ (Message_dict <$> msgs)) (model input)).2 = inr trimmed ∧
        kw_messages kw = Some trimmed.
Proof.
  intros Hwf Hne. cbv zeta.
  destruct (make_completion_summary tt_trim ChatCompletion_create
              msgs input s Hwf) as (_ & _ & _ & _ & _ & Hcase).
  cbv zeta in Hcase.
  assert (window_of (buffer s) msgs = buffer s ++ (Message_dict <$> msgs)) as Hw.
  { unfold window_of. rewrite decide_False; [done|].
    destruct (buffer s); [done | cbn; lia]. }
  rewrite Hw in Hcase.
  destruct (tt_trim (buffer s ++ (Message_dict <$> msgs)) (model input)).2
    as [e|trimmed].
  - destruct Hcase as (_ & Htr & _). exists []. split; [done|].
    intros kw Hin. by apply elem_of_nil in Hin.
  - destruct Hcase as (Htr & _). eexists. split; [exact Htr|].
    intros kw Hin. apply list_elem_of_singleton in Hin. injection Hin as ->.
    by exists trimmed.
Qed.

(** X14.  The seed is sent on an empty buffer only.  After a call with
    [append_history] and at least one new message the buffer is not empty,
    whatever the outcome of that call, so the window of the next call is
    that buffer followed by the next messages and no longer begins with the
    default system message the first request carried. *)
Theorem seed_is_not_sent_again msgs input msgs' input' s :
  node_wf s →
  append_history input = true →
  msgs ≠ [] →
  let s1 := (make_completion msgs input s).2 in
  buffer s1 ≠ [] ∧
  ∃ rest,
    trace (make_completion msgs' input' s1).2
      = trace s1 ++ EvTrim (buffer s1 ++ (Message_dict <$> msgs')) (model input')
                 :: rest.
Proof.
  intros Hwf Hah Hne. cbv zeta.
  destruct (make_completion_summary tt_trim ChatCompletion_create
              msgs input s Hwf) as (Hwf1 & _).
  destruct (buffer_after_call tt_trim ChatCompletion_create msgs input s Hwf)
    as (tail & Hbuf & _).
  assert (buffer (make_completion msgs input s).2 ≠ []) as Hne1.
  { rewrite Hbuf. unfold history_commits, commits. rewrite Hah.
    destruct msgs as [|m msgs]; [done|].
    intros Heq. apply (f_equal length) in Heq.
    rewrite !length_app in Heq. cbn in Heq. lia. }
  split; [done|].
  destruct (make_completion_summary tt_trim ChatCompletion_create
              msgs' input' _ Hwf1) as (_ & _ & _ & _ & _ & Hcase).
  cbv zeta in Hcase.
  assert (window_of (buffer (make_completion msgs input s).2) msgs'
          = buffer (make_completion msgs input s).2 ++ (Message_dict <$> msgs'))
    as Hw.
  { unfold window_of. rewrite decide_False; [done|].
    destruct (buffer (make_completion msgs input s).2); [done | cbn; lia]. }
  rewrite Hw in Hcase.
  destruct (tt_trim _ _).2 as [e|trimmed].
  - destruct Hcase as (_ & Htr & _). by exists [].
  - destruct Hcase as (Htr & _). by eexists.
Qed.

End GatewayMore.

(** ** The further properties on concrete inputs *)

Lemma fragments_then_direct_append_witness :
  node_wf fresh_node ∧
  cur_content (self fresh_node) = None ∧
  ["a"; "b"] ≠ [] ∧
  buffer ((add_role "user";; for_each ["a"; "b"] add_content;;
           add_single_message (Message_of "assistant" "ok")) fresh_node).2
    = buffer fresh_node
        ++ [Message_dict (Message_of "user" (fragments_text ["a"; "b"]));
            Message_dict (Message_of "assistant" "ok")].
Proof.
  assert (node_wf fresh_node) as Hwf by concrete_wf.
  split; [exact Hwf|]. split; [reflexivity|]. split; [discriminate|].
  exact (proj1 (proj2 (fragments_then_direct_append "user" ["a"; "b"]
                         (Message_of "assistant" "ok") fresh_node
                         Hwf eq_refl ltac:(discriminate)))).
Defined.

Lemma direct_append_keeps_partial_accumulator_witness :
  node_wf node_with_content_only ∧
  complete_pending (self node_with_content_only) = false ∧
  self (add_single_message (Message_of "user" "hi") node_with_content_only).2
    = self node_with_content_only.
Proof.
  assert (node_wf node_with_content_only) as Hwf by concrete_wf.
  split; [exact Hwf|]. split; [reflexivity|].
  exact (proj1 (proj2 (proj2 (direct_append_keeps_partial_accumulator
                                (Message_of "user" "hi") node_with_content_only
                                Hwf eq_refl)))).
Defined.

Lemma system_message_goes_last_witness :
  node_wf node_with_pending ∧
  buffer (add_system_message "be brief" node_with_pending).2
    = buffer node_with_pending ++ pending (self node_with_pending)
        ++ [Message_dict (Message_of "system" "be brief")].
Proof.
  assert (node_wf node_with_pending) as Hwf by concrete_wf.
  split; [exact Hwf|].
  exact (proj1 (proj2 (system_message_goes_last "be brief" node_with_pending Hwf))).
Defined.

Lemma registry_is_append_only_witness :
  node_wf fresh_node ∧
  registry (for_each [get_weather; get_weather] add_function fresh_node).2
    = registry fresh_node
        ++ [FunctionDefinition_dict get_weather; FunctionDefinition_dict get_weather].
Proof.
  assert (node_wf fresh_node) as Hwf by concrete_wf.
  split; [exact Hwf|].
  exact (proj1 (proj2 (registry_is_append_only [get_weather; get_weather]
                         fresh_node Hwf))).
Defined.

Lemma registry_changes_only_by_add_function_witness :
  node_wf fresh_node ∧
  (∀ fd, OpChat "hi" keep_history ≠ OpAddFunction fd) ∧
  registry (run_op trim_keeps_all vendor_down (OpChat "hi" keep_history)
              fresh_node).2
    = registry fresh_node.
Proof.
  assert (node_wf fresh_node) as Hwf by concrete_wf.
  split; [exact Hwf|]. split; [intros fd; discriminate|].
  exact (registry_changes_only_by_add_function trim_keeps_all vendor_down
           (OpChat "hi" keep_history) fresh_node Hwf
           (λ fd, ltac:(discriminate))).
Defined.

Lemma request_shape_witness :
  node_wf fresh_node ∧
  kw_model (request_of keep_history_streaming
              (window_of (buffer fresh_node) one_message) (registry fresh_node))
    = "gpt-4" ∧
  kw_stream (request_of keep_history_streaming
               (window_of (buffer fresh_node) one_message) (registry fresh_node))
    = Some true.
Proof.
  assert (node_wf fresh_node) as Hwf by concrete_wf.
  split; [exact Hwf|].
  assert (called_with fresh_node
            (_make_completion trim_keeps_all vendor_down one_message
               keep_history_streaming fresh_node).2
            (window_of (buffer fresh_node) one_message)
            (request_of keep_history_streaming
               (window_of (buffer fresh_node) one_message)
               (registry fresh_node))) as Hcall by concrete_call.
  pose proof (request_shape trim_keeps_all vendor_down one_message
                keep_history_streaming fresh_node _ _ Hwf Hcall)
    as (Hm & _ & Hs & _).
  split; [exact Hm | exact Hs].
Defined.

Lemma trim_failure_propagates_witness :
  node_wf fresh_node ∧
  (trim_fails (window_of (buffer fresh_node) one_message) (model keep_history)).2
    = inl (Exc "NotImplementedError" "unknown model") ∧
  (_make_completion trim_fails vendor_down one_message keep_history fresh_node).1
    = Raise (Exc "NotImplementedError" "unknown model") ∧
  buffer (_make_completion trim_fails vendor_down one_message keep_history
            fresh_node).2
    = buffer fresh_node ++ commits (self fresh_node) one_message.
Proof.
  assert (node_wf fresh_node) as Hwf by concrete_wf.
  split; [exact Hwf|]. split; [reflexivity|].
  pose proof (trim_failure_propagates trim_fails vendor_down one_message
                keep_history fresh_node _ Hwf eq_refl) as (Hout & _ & _ & _ & Hbuf).
  split; [exact Hout | exact (Hbuf eq_refl)].
Defined.

Lemma empty_choices_raise_index_error_witness :
  node_wf fresh_node ∧
  choices (mkResponse []) = [] ∧
  (_make_completion trim_keeps_all vendor_no_choice one_message keep_history
     fresh_node).1
    = Raise (Exc "IndexError" "list index out of range") ∧
  buffer (_make_completion trim_keeps_all vendor_no_choice one_message
            keep_history fresh_node).2
    = buffer fresh_node ++ commits (self fresh_node) one_message.
Proof.
  assert (node_wf fresh_node) as Hwf by concrete_wf.
  split; [exact Hwf|]. split; [reflexivity|].
  assert (called_with fresh_node
            (_make_completion trim_keeps_all vendor_no_choice one_message
               keep_history fresh_node).2
            (window_of (buffer fresh_node) one_message)
            (request_of keep_history (window_of (buffer fresh_node) one_message)
               (registry fresh_node))) as Hcall by concrete_call.
  pose proof (empty_choices_raise_index_error trim_keeps_all vendor_no_choice
                one_message keep_history fresh_node _ _ (mkResponse [])
                Hwf Hcall eq_refl eq_refl) as (Hout & _ & _ & Hbuf).
  split; [exact Hout | exact (Hbuf eq_refl)].
Defined.

(** [complete] with a trim that cuts the messages where they stand: the
    accumulator is kept, and so is the number of stored records. *)
Lemma complete_keeps_accumulator_witness :
  node_wf node_with_history ∧
  self (complete trim_cuts_in_place vendor_down no_history node_with_history).2
    = self node_with_history ∧
  length (history_after_trim trim_cuts_in_place [] no_history node_with_history)
    = length (buffer node_with_history).
Proof.
  assert (node_wf node_with_history) as Hwf by concrete_wf.
  split; [exact Hwf|].
  pose proof (complete_keeps_accumulator trim_cuts_in_place vendor_down
                no_history node_with_history Hwf) as (Hself & _ & _ & Hlen & _).
  split; [exact Hself | exact Hlen].
Defined.

Lemma call_without_history_appends_nothing_witness :
  node_wf node_with_history ∧
  append_history no_history = false ∧
  self (_make_completion trim_keeps_last
          (vendor_says (Message_of "assistant" "hello")) one_message
          no_history node_with_history).2
    = self node_with_history ∧
  buffer (_make_completion trim_keeps_last
            (vendor_says (Message_of "assistant" "hello")) one_message
            no_history node_with_history).2
    = buffer node_with_history.
Proof.
  assert (node_wf node_with_history) as Hwf by concrete_wf.
  split; [exact Hwf|]. split; [reflexivity|].
  pose proof (call_without_history_appends_nothing trim_keeps_last
                (vendor_says (Message_of "assistant" "hello")) one_message
                no_history node_with_history Hwf eq_refl)
    as (Hself & _ & _ & _ & _ & _ & Hbuf).
  split; [exact Hself | exact (Hbuf eq_refl)].
Defined.

Lemma window_is_history_then_new_messages_witness :
  node_wf node_with_history ∧
  buffer node_with_history ≠ [] ∧
  ∃ rest,
    trace (_make_completion trim_keeps_all vendor_down one_message keep_history
             node_with_history).2
      = trace node_with_history
          ++ EvTrim (buffer node_with_history ++ (Message_dict <$> one_message))
               "gpt-4" :: rest.
Proof.
  assert (node_wf node_with_history) as Hwf by concrete_wf.
  assert (buffer node_with_history ≠ []) as Hne.
  { intros Heq. apply (f_equal length) in Heq. vm_compute in Heq. discriminate Heq. }
  split; [exact Hwf|]. split; [exact Hne|].
  destruct (window_is_history_then_new_messages trim_keeps_all vendor_down
              one_message keep_history node_with_history Hwf Hne)
    as (rest & Htr & _).
  exists rest. exact Htr.
Defined.

Lemma seed_is_not_sent_again_witness :
  node_wf fresh_node ∧
  append_history keep_history = true ∧
  one_message ≠ [] ∧
  buffer (_make_completion trim_keeps_all vendor_down one_message keep_history
            fresh_node).2 ≠ [].
Proof.
  assert (node_wf fresh_node) as Hwf by concrete_wf.
  split; [exact Hwf|]. split; [reflexivity|]. split; [discriminate|].
  exact (proj1 (seed_is_not_sent_again trim_keeps_all vendor_down one_message
                  keep_history [] no_history fresh_node
                  Hwf eq_refl ltac:(discriminate))).
Defined.
